(** * Lc0 match downloader: a shallow embedding of
    [src/PgnTools/Assets/lc0/lc0_match_downloader.py] and the properties
    of its state store, fetcher and normalizer.

    Conventions of the embedding.
    - A Python [str] is a [string]; a character is an [ascii] (code points
      0..255).  [bytes] is a list of bytes.
    - A Python [int] is a [Z].
    - A function that can raise returns a [result]; [try]/[except] is a
      [match] on it.
    - The [matches] table is a finite map from [match_id] (its primary
      key) to the remaining columns; [download_log] is the list of its
      rows, oldest first.
    - Library code that is not part of the repository (gzip, tarfile, the
      UTF-8 decoder, [datetime.fromisoformat]) is a field of the class
      [Runtime]; the HTTP server is a function from URLs to responses.
    - Calls to [logger] have no effect on any value below and are left
      out. *)

From Stdlib Require Import ZArith Ascii String List Lia.
From stdpp Require Import base option list gmap strings sorting pretty.

Local Open Scope Z_scope.

(** ** Python strings *)

Module Py.

(** The exceptions the modelled code can meet. *)
Inductive exn : Type :=
  | IndexError
  | ValueError
  | TypeError
  | ReadError.

Inductive result (A : Type) : Type :=
  | Ok (a : A)
  | Raise (e : exn).
Arguments Ok {A} a.
Arguments Raise {A} e.

Definition bind {A B : Type} (m : result A) (k : A → result B) : result B :=
  match m with
  | Ok a => k a
  | Raise e => Raise e
  end.

(** [try: m except Exception: d] *)
Definition try_except {A : Type} (m : result A) (d : A) : A :=
  match m with
  | Ok a => a
  | Raise _ => d
  end.

(** [l[0]] *)
Definition index0 {A : Type} (l : list A) : result A :=
  match l with
  | x :: _ => Ok x
  | [] => Raise IndexError
  end.

Definition dquote : string := String "034"%char "".
Definition newline : ascii := "010"%char.

(** [str.isspace] on one character, for code points below 256. *)
Definition isspace (c : ascii) : bool :=
  let n := N_of_ascii c in
  (((9 <=? n) && (n <=? 13)) || ((28 <=? n) && (n <=? 32))
   || (n =? 133) || (n =? 160))%N.

(** [s.startswith(p)] *)
Definition startswith (s p : string) : bool := String.prefix p s.

(** [s.endswith(p)] *)
Definition endswith (s p : string) : bool :=
  String.prefix (String.rev p) (String.rev s).

(** [needle in hay] *)
Fixpoint contains (needle hay : string) : bool :=
  String.prefix needle hay ||
  match hay with
  | "" => false
  | String _ hay' => contains needle hay'
  end.

(** [s[:n]] *)
Fixpoint slice_to (n : nat) (s : string) : string :=
  match n, s with
  | S n', String c s' => String c (slice_to n' s')
  | _, _ => ""
  end.

Fixpoint lstrip (s : string) : string :=
  match s with
  | String c s' => if isspace c then lstrip s' else s
  | "" => ""
  end.

(** [s.strip()] *)
Definition strip (s : string) : string :=
  String.rev (lstrip (String.rev (lstrip s))).

(** [s.split(sep)] for a one-character separator. *)
Fixpoint split_on (sep : ascii) (s : string) : list string :=
  match s with
  | "" => [""]
  | String c s' =>
      if Ascii.eqb c sep then "" :: split_on sep s'
      else match split_on sep s' with
           | h :: t => String c h :: t
           | [] => [String c ""]
           end
  end.

(** [s.split()]: the maximal runs of non-blank characters. *)
Fixpoint split (s : string) : list string :=
  match s with
  | "" => []
  | String c s' =>
      if isspace c then split s'
      else match s' with
           | "" => [String c ""]
           | String c' _ =>
               if isspace c' then String c "" :: split s'
               else match split s' with
                    | h :: t => String c h :: t
                    | [] => [String c ""]
                    end
           end
  end.

(** [sep.join(ls)] *)
Definition join (sep : string) (ls : list string) : string :=
  String.concat sep ls.

(** [str(n)] and the [{n}] of an f-string. *)
Definition str (n : Z) : string := pretty n.

(** [f"{n:02d}"] *)
Definition fmt_02d (n : Z) : string :=
  if (0 <=? n) && (n <? 10) then "0" +:+ str n else str n.

End Py.

#[global] Instance result_bind : MBind Py.result :=
  fun A B k m => Py.bind m k.
#[global] Instance result_ret : MRet Py.result := @Py.Ok.

Definition bytes : Type := list Byte.byte.

(** ** [datetime] values

    [datetime(y, m, d)] builds a naive value; [fromisoformat] may also
    return an aware one (a UTC offset in the parsed text).  Python orders
    two naive values field by field, and refuses to order a naive and an
    aware one with a [TypeError]. *)

Record naive : Type := mk_naive {
  year : Z; month : Z; day : Z;
  hour : Z; minute : Z; second : Z; microsecond : Z
}.

Inductive datetime : Type :=
  | Naive (d : naive)
  | Aware (d : naive) (utcoffset : Z).

(** [datetime(y, m, d)] *)
Definition datetime_ymd (y m d : Z) : naive := mk_naive y m d 0 0 0 0.

Definition fields (d : naive) : list Z :=
  [year d; month d; day d; hour d; minute d; second d; microsecond d].

Fixpoint lex_compare (a b : list Z) : comparison :=
  match a, b with
  | [], [] => Eq
  | [], _ :: _ => Lt
  | _ :: _, [] => Gt
  | x :: a', y :: b' =>
      match x ?= y with
      | Eq => lex_compare a' b'
      | c => c
      end
  end.

Definition naive_ge (a b : naive) : bool :=
  match lex_compare (fields a) (fields b) with
  | Lt => false
  | _ => true
  end.

(** [date >= version_date] with a naive right-hand side. *)
Definition datetime_ge (date : datetime) (version_date : naive) : Py.result bool :=
  match date with
  | Naive d => Py.Ok (naive_ge d version_date)
  | Aware _ _ => Py.Raise Py.TypeError
  end.

Definition date_part (date : datetime) : naive :=
  match date with
  | Naive d => d
  | Aware d _ => d
  end.

(** ** Archives as [tarfile] shows them *)

(** What [tar.extractfile(member)] followed by [f.read()] does. *)
Inductive extracted : Type :=
  | NotAFile                  (* [extractfile] returns [None] *)
  | FileData (data : bytes)   (* [f.read()] returns [data] *)
  | Unreadable.               (* [extractfile] or [read] raises *)

Record TarInfo : Type := mk_TarInfo {
  name : string;
  extractfile : extracted
}.

(** ** The library functions the program calls

    - [fromisoformat]: [datetime.fromisoformat]; raises on text that is no
      ISO date.
    - [targz_getmembers]: [gzip] decompression, [tarfile.open] and
      [tar.getmembers()] on the bytes of a file; raises on a malformed
      archive.
    - [decode_utf8_ignore]: [bytes.decode('utf-8', errors='ignore')].
    - [read_text_utf8_ignore]: the text [Path.read_text(encoding='utf-8',
      errors='ignore')] returns for a file holding these bytes. *)
Class Runtime : Type := {
  fromisoformat : string → Py.result datetime;
  targz_getmembers : bytes → Py.result (list TarInfo);
  decode_utf8_ignore : bytes → string;
  read_text_utf8_ignore : bytes → string
}.

(** ** Configuration *)

Module Config.

Definition STORAGE_BASE_URL : string :=
  "https://storage.lczero.org/files/match_pgns/".

Definition MAX_RETRIES : Z := 3.

Definition VERSION_MAP : list (naive * string) :=
  [ (datetime_ymd 2025 1 1, "v0.32.0");
    (datetime_ymd 2024 6 1, "v0.31.0");
    (datetime_ymd 2023 7 1, "v0.30.0");
    (datetime_ymd 2023 1 1, "v0.29.0");
    (datetime_ymd 2022 1 1, "v0.28.0");
    (datetime_ymd 2021 1 1, "v0.27.0");
    (datetime_ymd 2020 1 1, "v0.26.0");
    (datetime_ymd 2019 1 1, "v0.25.0");
    (datetime_ymd 2018 1 1, "v0.24.0");
    (datetime_ymd 1970 1 1, "v0.23.0") ].

End Config.

(** ** [PGNProcessor._get_lc0_version] *)

Section get_lc0_version.
Context `{Runtime}.

(** The [for version_date, version in ...] loop: [Ok (Some v)] is the
    [return version] inside it, [Ok None] is falling out of the loop. *)
Fixpoint version_loop (date : datetime) (table : list (naive * string))
  : Py.result (option string) :=
  match table with
  | [] => Py.Ok None
  | (version_date, version) :: rest =>
      b ← datetime_ge date version_date;
      if b : bool then Py.Ok (Some version) else version_loop date rest
  end.

(** The body of the [try]. *)
Definition _get_lc0_version_try (date_str : string) : Py.result string :=
  tok ← Py.index0 (Py.split date_str);
  date ← fromisoformat tok;
  r ← version_loop date Config.VERSION_MAP;
  mret (match r with
        | Some version => version
        | None => "v0.21.0"
        end).

Definition _get_lc0_version (date_str : string) : string :=
  Py.try_except (_get_lc0_version_try date_str) "v0.21.0".

End get_lc0_version.

(** ** [MatchDatabase]: the state store

    One [match_row] per row of the [matches] table, keyed by [match_id]
    (INTEGER PRIMARY KEY, a signed 64-bit value); the columns [created_at] of [matches] and
    [id], [timestamp] of [download_log] are filled by SQLite and read by
    nothing here: [download_log] keeps its rows in insertion order. *)

Record match_row : Type := mk_row {
  date : string;
  pgn_filename : string;
  run_id : option Z;
  download_status : string;
  download_attempts : Z;
  processed : bool
}.

Record log_row : Type := mk_log {
  log_match_id : Z;
  log_status : string;
  log_message : string
}.

Record MatchDatabase : Type := mk_db {
  matches : gmap Z match_row;
  download_log : list log_row
}.

(** A scraped tuple [(match_id, date, pgn_filename)]; the dictionaries
    [get_pending_downloads] returns have the same three entries. *)
Definition match_data : Type := (Z * string * string)%type.

Definition empty_db : MatchDatabase := mk_db ∅ [].

(** [INSERT OR IGNORE INTO matches (match_id, date, pgn_filename)]: the
    other columns take their defaults. *)
Definition insert_or_ignore (t : gmap Z match_row) (m : match_data)
  : gmap Z match_row :=
  let '(match_id, d, f) := m in
  match t !! match_id with
  | Some _ => t
  | None => <[match_id := mk_row d f None "pending" 0 false]> t
  end.

Definition insert_matches (ms : list match_data) (db : MatchDatabase)
  : MatchDatabase :=
  mk_db (foldl insert_or_ignore (matches db) ms) (download_log db).

(** [WHERE download_status IN ('pending', 'retry') AND download_attempts < ?] *)
Definition is_pending (r : match_row) : bool :=
  ((download_status r =? "pending")%string || (download_status r =? "retry")%string)
  && (download_attempts r <? Config.MAX_RETRIES).

(** [ORDER BY date DESC] compares the TEXT column byte by byte. *)
Definition date_desc (a b : Z * match_row) : Prop :=
  String.le (date (snd b)) (date (snd a)).

(** [ORDER BY date] *)
Definition date_asc (a b : Z * match_row) : Prop :=
  String.le (date (snd a)) (date (snd b)).

#[global] Instance date_desc_dec : RelDecision date_desc.
Proof. intros a b. unfold date_desc. apply _. Defined.

#[global] Instance date_asc_dec : RelDecision date_asc.
Proof. intros a b. unfold date_asc. apply _. Defined.

(** [LIMIT n] of SQLite, for [n] in its signed 64-bit range: a negative
    [n] is no limit.  The limit is written into the text of the query; a
    literal outside that range is no integer to SQLite, which then refuses
    the statement, and no row is read. *)
Definition sql_limit {A : Type} (n : Z) (rows : list A) : list A :=
  if n <? 0 then rows else take (Z.to_nat n) rows.

Definition to_match_data (kv : Z * match_row) : match_data :=
  (fst kv, date (snd kv), pgn_filename (snd kv)).

(** The rows of the pending query before [LIMIT].  SQL leaves the order
    of rows with equal dates open; the merge sort fixes one. *)
Definition pending_rows (db : MatchDatabase) : list (Z * match_row) :=
  merge_sort date_desc
    (filter (fun kv => is_pending (snd kv) = true) (map_to_list (matches db))).

(** [if limit:] adds the LIMIT clause for an integer other than 0. *)
Definition get_pending_downloads (limit : option Z) (db : MatchDatabase)
  : list match_data :=
  let rows := pending_rows db in
  to_match_data <$>
    match limit with
    | Some n => if n =? 0 then rows else sql_limit n rows
    | None => rows
    end.

Definition set_status (status : string) (r : match_row) : match_row :=
  mk_row (date r) (pgn_filename r) (run_id r)
         status (download_attempts r + 1) (processed r).

(** [UPDATE matches SET download_status = ?, download_attempts =
    download_attempts + 1 WHERE match_id = ?], then the INSERT into
    [download_log]. *)
Definition update_download_status (match_id : Z) (status message : string)
    (db : MatchDatabase) : MatchDatabase :=
  mk_db (alter (set_status status) match_id (matches db))
        (download_log db ++ [mk_log match_id status message]).

Definition set_processed (r : match_row) : match_row :=
  mk_row (date r) (pgn_filename r) (run_id r)
         (download_status r) (download_attempts r) true.

(** [UPDATE matches SET processed = 1 WHERE match_id = ?] *)
Definition mark_processed (match_id : Z) (db : MatchDatabase) : MatchDatabase :=
  mk_db (alter set_processed match_id (matches db)) (download_log db).

(** ** The world the fetcher and the normalizer act on

    [download_dir] maps a file name under [downloads/] to its bytes,
    [processed_dir] a path under [processed/] to its text, and [requests]
    lists the URLs handed to [session.get], oldest first.  Writing a file
    is taken to succeed. *)

Record world : Type := mk_world {
  db : MatchDatabase;
  download_dir : gmap string bytes;
  processed_dir : gmap string string;
  requests : list string
}.

Definition with_db (f : MatchDatabase → MatchDatabase) (w : world) : world :=
  mk_world (f (db w)) (download_dir w) (processed_dir w) (requests w).

(** [save_path.write_bytes(content)] *)
Definition write_bytes (filename : string) (content : bytes) (w : world) : world :=
  mk_world (db w) (<[filename := content]> (download_dir w))
           (processed_dir w) (requests w).

(** [with open(path, 'a') as f: f.write(text)] *)
Definition append_text (path text : string) (w : world) : world :=
  mk_world (db w) (download_dir w)
           (<[path := default "" (processed_dir w !! path) +:+ text]> (processed_dir w))
           (requests w).

Definition note_request (url : string) (w : world) : world :=
  mk_world (db w) (download_dir w) (processed_dir w) (requests w ++ [url]).

(** What [session.get(url, timeout=60)] and [response.read()] do. *)
Inductive response : Type :=
  | Response (status : Z) (read : Py.result bytes)
  | TimeoutError
  | ClientError.

Definition session : Type := string → response.

(** ** [MatchDownloader]: the fetcher *)

Section fetcher.
Context `{Runtime}.

(** The body of the [try] of [_validate_pgn_content]. *)
Definition _validate_pgn_content_try (content : bytes) (filename : string)
  : Py.result bool :=
  if Py.endswith filename ".tar.gz" then
    members ← targz_getmembers content;
    mret (existsb (fun m => Py.endswith (name m) ".pgn") members)
  else if Py.endswith filename ".pgn" then
    let text := Py.slice_to 500 (decode_utf8_ignore content) in
    mret (Py.contains "[Event" text || Py.contains "[White" text)
  else
    mret false.

Definition _validate_pgn_content (content : bytes) (filename : string) : bool :=
  Py.try_except (_validate_pgn_content_try content filename) false.

Definition _extract_run_id (match_id : Z) (date_str : string) : Z := 1.

Definition url_patterns (run_id match_id : Z) : list string :=
  let base_url := Config.STORAGE_BASE_URL in
  [ base_url +:+ Py.str run_id +:+ "/match_" +:+ Py.str match_id +:+ ".pgn.tar.gz";
    base_url +:+ Py.str run_id +:+ "/match_" +:+ Py.str match_id +:+ ".pgn";
    base_url +:+ "match_" +:+ Py.str match_id +:+ ".pgn.tar.gz";
    base_url +:+ "match_" +:+ Py.str match_id +:+ ".pgn" ].

(** The [for url in url_patterns] loop with the code after it: the empty
    list is the loop running out.  A response that is neither 200 nor 404,
    a timeout and any other exception all go on to the next URL. *)
Fixpoint try_urls (net : session) (match_id : Z) (pgn_filename : string)
    (urls : list string) (w : world) : bool * world :=
  match urls with
  | [] =>
      (false,
       with_db (update_download_status match_id "failed" "All URL patterns failed") w)
  | url :: rest =>
      let w := note_request url w in
      match net url with
      | Response status read =>
          if status =? 200 then
            match read with
            | Py.Ok content =>
                if _validate_pgn_content content pgn_filename then
                  let w := write_bytes pgn_filename content w in
                  (true,
                   with_db (update_download_status match_id "success"
                              ("Downloaded from " +:+ url)) w)
                else try_urls net match_id pgn_filename rest w
            | Py.Raise _ => try_urls net match_id pgn_filename rest w
            end
          else if status =? 404 then try_urls net match_id pgn_filename rest w
          else try_urls net match_id pgn_filename rest w
      | TimeoutError => try_urls net match_id pgn_filename rest w
      | ClientError => try_urls net match_id pgn_filename rest w
      end
  end.

Definition download_match (net : session) (m : match_data) (w : world)
  : bool * world :=
  let '(match_id, d, pgn_filename) := m in
  let run_id := _extract_run_id match_id d in
  try_urls net match_id pgn_filename (url_patterns run_id match_id) w.

(** [download_all]: the tasks of [asyncio.gather] each touch the row and
    the file of their own match only; they are run here one after the
    other, in the order of the pending list. *)
Definition download_all (net : session) (limit : option Z) (w : world) : world :=
  let pending := get_pending_downloads limit (db w) in
  foldl (fun w m => snd (download_match net m w)) w pending.

End fetcher.

(** ** [PGNProcessor]: the normalizer *)

Section normalizer.
Context `{Runtime}.

Definition white_line (lc0_version : string) : string :=
  "[White " +:+ Py.dquote +:+ "Lc0 " +:+ lc0_version +:+ Py.dquote +:+ "]".

Definition black_line (lc0_version : string) : string :=
  "[Black " +:+ Py.dquote +:+ "Lc0 " +:+ lc0_version +:+ Py.dquote +:+ "]".

Definition event_line (match_id : Z) : string :=
  "[Event " +:+ Py.dquote +:+ "Lc0 match " +:+ Py.str match_id +:+ Py.dquote +:+ "]".

Definition date_line (date_only : string) : string :=
  "[Date " +:+ Py.dquote +:+ date_only +:+ Py.dquote +:+ "]".

(** [any('[Date' in l for l in lines[:20])] *)
Definition date_in_first_20 (lines : list string) : bool :=
  existsb (Py.contains "[Date") (take 20 lines).

(** The [for line in lines] loop of [_process_pgn_content]; the result is
    what the loop appends to [processed_lines], [in_headers] is the flag
    of that name on entry. *)
Fixpoint rewrite_lines (lines : list string) (lc0_version date_only : string)
    (match_id : Z) (in_headers : bool) (todo : list string) : list string :=
  match todo with
  | [] => []
  | line :: todo' =>
      if in_headers && Py.startswith line "[Event" then
        line ::
        (if negb (date_in_first_20 lines) then [date_line date_only] else [])
        ++ rewrite_lines lines lc0_version date_only match_id in_headers todo'
      else if Py.startswith line "[White" then
        white_line lc0_version
        :: rewrite_lines lines lc0_version date_only match_id in_headers todo'
      else if Py.startswith line "[Black" then
        black_line lc0_version
        :: rewrite_lines lines lc0_version date_only match_id in_headers todo'
      else if Py.startswith line "[Event" then
        event_line match_id
        :: rewrite_lines lines lc0_version date_only match_id in_headers todo'
      else
        let in_headers' :=
          if in_headers && (Py.strip line =? "")%string then false else in_headers in
        line :: rewrite_lines lines lc0_version date_only match_id in_headers' todo'
  end.

(** [match_date.split()[0]] raises [IndexError] on a blank date. *)
Definition _process_pgn_content (pgn_text match_date : string) (match_id : Z)
  : Py.result string :=
  let lc0_version := _get_lc0_version match_date in
  date_only ← Py.index0 (Py.split match_date);
  let lines := Py.split_on Py.newline pgn_text in
  mret (Py.join (String Py.newline "")
          (rewrite_lines lines lc0_version date_only match_id true lines)).

(** The loop over [tar.getmembers()]: an exception ends it, and the
    [except] of [_extract_from_archive] returns what was collected. *)
Fixpoint extract_members (members : list TarInfo) (pgn_contents : list string)
  : list string :=
  match members with
  | [] => pgn_contents
  | member :: rest =>
      if Py.endswith (name member) ".pgn" then
        match extractfile member with
        | NotAFile => extract_members rest pgn_contents
        | FileData data =>
            extract_members rest (pgn_contents ++ [decode_utf8_ignore data])
        | Unreadable => pgn_contents
        end
      else extract_members rest pgn_contents
  end.

Definition _extract_from_archive (archive : bytes) : list string :=
  match targz_getmembers archive with
  | Py.Ok members => extract_members members []
  | Py.Raise _ => []
  end.

Definition month_file (d : naive) : string :=
  Py.str (year d) +:+ "/" +:+ Py.fmt_02d (month d) +:+ "/lc0_matches_"
  +:+ Py.str (year d) +:+ "_" +:+ Py.fmt_02d (month d) +:+ ".pgn".

Definition games_separator : string :=
  String Py.newline (String Py.newline "").

(** The body of the [try] of [_organize_by_month]. *)
Definition _organize_by_month_try (date_str pgn_content : string) (w : world)
  : Py.result world :=
  tok ← Py.index0 (Py.split date_str);
  d ← fromisoformat tok;
  mret (append_text (month_file (date_part d)) (pgn_content +:+ games_separator) w).

Definition _organize_by_month (date_str pgn_content : string) (w : world) : world :=
  Py.try_except (_organize_by_month_try date_str pgn_content w) w.

(** The [for pgn_text in pgn_contents] loop of [process_match]; what was
    appended before an exception stays appended. *)
Fixpoint process_units (pgn_contents : list string) (d : string) (match_id : Z)
    (w : world) : Py.result unit * world :=
  match pgn_contents with
  | [] => (Py.Ok tt, w)
  | pgn_text :: rest =>
      if (Py.strip pgn_text =? "")%string then process_units rest d match_id w
      else
        match _process_pgn_content pgn_text d match_id with
        | Py.Ok processed_pgn =>
            process_units rest d match_id (_organize_by_month d processed_pgn w)
        | Py.Raise e => (Py.Raise e, w)
        end
  end.

Definition process_match (match_id : Z) (d pgn_filename : string) (w : world)
  : world :=
  match download_dir w !! pgn_filename with
  | None => w
  | Some content =>
      let pgn_contents :=
        if Py.endswith pgn_filename ".tar.gz" then _extract_from_archive content
        else [read_text_utf8_ignore content] in
      match process_units pgn_contents d match_id w with
      | (Py.Ok _, w') => with_db (mark_processed match_id) w'
      | (Py.Raise _, w') => w'
      end
  end.

(** [WHERE download_status = 'success' AND processed = 0] *)
Definition is_ready (r : match_row) : bool :=
  (download_status r =? "success")%string && negb (processed r).

Definition ready_rows (db : MatchDatabase) : list (Z * match_row) :=
  merge_sort date_asc
    (filter (fun kv => is_ready (snd kv) = true) (map_to_list (matches db))).

Definition process_all (w : world) : world :=
  foldl (fun w kv => process_match (fst kv) (date (snd kv)) (pgn_filename (snd kv)) w)
        w (ready_rows (db w)).

End normalizer.

(** ** A small runtime for the examples

    [iso_date] reads [YYYY-MM-DD], alone or followed by [THH:MM:SS] and
    then by a UTC offset [+HH:MM] or [-HH:MM]; with an offset the value is
    aware.  An archive is the byte [x1f] followed by the text of its one
    member [games.pgn]; text is read one byte per character. *)

Module Demo.

Definition digit (c : ascii) : option Z :=
  let n := Z.of_N (N_of_ascii c) in
  if (48 <=? n) && (n <=? 57) then Some (n - 48) else None.

Definition number (cs : list ascii) : option Z :=
  foldl (fun acc c => a ← acc; d ← digit c; Some (10 * a + d)) (Some 0) cs.

Definition leap_year (y : Z) : bool :=
  ((y mod 4 =? 0) && negb (y mod 100 =? 0)) || (y mod 400 =? 0).

Definition days_in_month (y m : Z) : Z :=
  if m =? 2 then (if leap_year y then 29 else 28)
  else if (m =? 4) || (m =? 6) || (m =? 9) || (m =? 11) then 30
  else 31.

(** [YYYY-MM-DD] *)
Definition iso_ymd (cs : list ascii) : option (Z * Z * Z) :=
  match cs with
  | [y1; y2; y3; y4; s1; m1; m2; s2; d1; d2] =>
      y ← number [y1; y2; y3; y4];
      m ← number [m1; m2];
      d ← number [d1; d2];
      if Ascii.eqb s1 "-" && Ascii.eqb s2 "-" && (1 <=? y)
         && (1 <=? m) && (m <=? 12) && (1 <=? d) && (d <=? days_in_month y m)
      then Some (y, m, d) else None
  | _ => None
  end.

(** [THH:MM:SS] *)
Definition iso_hms (cs : list ascii) : option (Z * Z * Z) :=
  match cs with
  | [t; h1; h2; c1; m1; m2; c2; s1; s2] =>
      h ← number [h1; h2];
      m ← number [m1; m2];
      s ← number [s1; s2];
      if Ascii.eqb t "T" && Ascii.eqb c1 ":" && Ascii.eqb c2 ":"
         && (h <=? 23) && (m <=? 59) && (s <=? 59)
      then Some (h, m, s) else None
  | _ => None
  end.

(** [+HH:MM] or [-HH:MM], in seconds east of UTC. *)
Definition iso_offset (cs : list ascii) : option Z :=
  match cs with
  | [sign; h1; h2; c; m1; m2] =>
      h ← number [h1; h2];
      m ← number [m1; m2];
      if Ascii.eqb c ":" && (h <=? 23) && (m <=? 59) then
        if Ascii.eqb sign "+" then Some (3600 * h + 60 * m)
        else if Ascii.eqb sign "-" then Some (- (3600 * h + 60 * m))
        else None
      else None
  | _ => None
  end.

Definition iso_date (s : string) : Py.result datetime :=
  let cs := String.list_ascii_of_string s in
  match iso_ymd (take 10 cs), drop 10 cs with
  | Some (y, m, d), [] => Py.Ok (Naive (datetime_ymd y m d))
  | Some (y, m, d), clock =>
      match iso_hms (take 9 clock), drop 9 clock with
      | Some (h, mi, sec), [] => Py.Ok (Naive (mk_naive y m d h mi sec 0))
      | Some (h, mi, sec), zone =>
          match iso_offset zone with
          | Some off => Py.Ok (Aware (mk_naive y m d h mi sec 0) off)
          | None => Py.Raise Py.ValueError
          end
      | None, _ => Py.Raise Py.ValueError
      end
  | None, _ => Py.Raise Py.ValueError
  end.

Definition one_member_archive (content : bytes) : Py.result (list TarInfo) :=
  match content with
  | Byte.x1f :: data => Py.Ok [mk_TarInfo "games.pgn" (FileData data)]
  | _ => Py.Raise Py.ReadError
  end.

Definition runtime : Runtime := {|
  fromisoformat := iso_date;
  targz_getmembers := one_member_archive;
  decode_utf8_ignore := String.string_of_list_byte;
  read_text_utf8_ignore := String.string_of_list_byte
|}.

Definition tag (key value : string) : string :=
  "[" +:+ key +:+ " " +:+ Py.dquote +:+ value +:+ Py.dquote +:+ "]".

Definition lines (ls : list string) : string :=
  Py.join (String Py.newline "") ls.

(** One game with no Date tag. *)
Definition game : string :=
  lines [ tag "Event" "Test match"; tag "White" "lc0.net.1";
          tag "Black" "lc0.net.2"; tag "Result" "1-0"; ""; "1. e4 e5 1-0" ].

(** A game whose header block has neither an Event tag nor a Date tag. *)
Definition game_without_event : string :=
  lines [ tag "White" "lc0.net.1"; tag "Black" "lc0.net.2"; ""; "1. d4 d5 1/2-1/2" ].

(** A file with two games: the first has no Date tag, the second has
    one, on line 9 of the file. *)
Definition two_games : string :=
  lines [ tag "Event" "Test match"; tag "White" "lc0.net.1";
          tag "Black" "lc0.net.2"; tag "Result" "1-0"; ""; "1. e4 e5 1-0"; "";
          tag "Event" "Test match"; tag "Date" "2021.03.14";
          tag "White" "lc0.net.2"; tag "Black" "lc0.net.1";
          tag "Result" "0-1"; ""; "1. d4 d5 0-1" ].

(** One game with no Date tag and an Annotator tag whose value holds the
    text "[Date". *)
Definition annotated_game : string :=
  lines [ tag "Event" "Test match"; tag "White" "lc0.net.1";
          tag "Black" "lc0.net.2"; tag "Annotator" "[Date unknown]";
          tag "Result" "1-0"; ""; "1. e4 e5 1-0" ].

Definition archive_of (text : string) : bytes :=
  Byte.x1f :: String.list_byte_of_string text.

Definition archive : bytes := Byte.x1f :: String.list_byte_of_string game.

Definition html : bytes := String.list_byte_of_string "<html>Not a game</html>".

(** A server that answers 404 to every URL. *)
Definition nothing_there : session := fun _ => Response 404 (Py.Ok []).

(** A server that answers 200 with a page of HTML to every URL. *)
Definition malformed : session := fun _ => Response 200 (Py.Ok html).

(** A server that holds the archive of one match at the third candidate
    URL only. *)
Definition third_candidate (match_id : Z) : session := fun url =>
  if (url =? Config.STORAGE_BASE_URL +:+ "match_" +:+ Py.str match_id
             +:+ ".pgn.tar.gz")%string
  then Response 200 (Py.Ok archive) else Response 404 (Py.Ok []).

(** An installation that has fetched one match: its row says success and
    [content] is on disk under its file name. *)
Definition fetched (match_id : Z) (d : string) (content : bytes) : world :=
  let f := "match_" +:+ Py.str match_id +:+ ".pgn.tar.gz" in
  mk_world
    (update_download_status match_id "success" "Downloaded"
       (insert_matches [(match_id, d, f)] empty_db))
    {[ f := content ]} ∅ [].

(** A fresh installation that has scraped one match. *)
Definition scraped (match_id : Z) (d : string) : world :=
  mk_world
    (insert_matches
       [(match_id, d, "match_" +:+ Py.str match_id +:+ ".pgn.tar.gz")] empty_db)
    ∅ ∅ [].

End Demo.

(** ** [MatchDatabase.get_stats] and the counts of [match_analyzer.py]

    Each figure is a [SELECT COUNT( * ) FROM matches WHERE ...]. *)

Definition count_where (p : match_row → bool) (db : MatchDatabase) : nat :=
  length (filter (fun kv => p (snd kv) = true) (map_to_list (matches db))).

Definition has_status (status : string) (r : match_row) : bool :=
  (download_status r =? status)%string.

Module Stats.

Record t : Type := mk {
  total_matches : nat;
  downloaded : nat;
  pending : nat;
  failed : nat;
  processed : nat
}.

End Stats.

Definition get_stats (db : MatchDatabase) : Stats.t :=
  Stats.mk (count_where (fun _ => true) db)
           (count_where (has_status "success") db)
           (count_where (has_status "pending") db)
           (count_where (has_status "failed") db)
           (count_where processed db).

Module Analyzer.

(** [failure_analysis]: "Matches eligible for retry". *)
Definition is_retry_candidate (r : match_row) : bool :=
  has_status "failed" r && (download_attempts r <? 3).

Definition retry_count (db : MatchDatabase) : nat :=
  count_where is_retry_candidate db.

(** [pending_work]: "Pending downloads". *)
Definition pending_downloads (db : MatchDatabase) : nat :=
  count_where (fun r => has_status "pending" r && (download_attempts r <? 3)) db.

(** [pending_work]: "Downloaded but not processed". *)
Definition pending_processing (db : MatchDatabase) : nat :=
  count_where (fun r => has_status "success" r && negb (processed r)) db.

End Analyzer.

(** ** [MatchScraper._parse_html]

    The HTML parser is a library: a listing arrives here as the rows
    [soup.select('table.table tbody tr')] returns, each with the cells
    [tr.find_all('td')] returns.  Of a cell the loop reads the text of its
    first link, when it has one, and its own text, both as
    [get_text(strip=True)] gives them. *)

Record cell : Type := mk_cell {
  link_text : option string;
  cell_text : string
}.

Definition scraped : Type := (string * string * string)%type.

(** [bool(s)] of a string. *)
Definition nonempty (s : string) : bool := negb (s =? "")%string.

Fixpoint _parse_html (table_rows : list (list cell)) : list scraped :=
  match table_rows with
  | [] => []
  | tds :: table_rows' =>
      match tds, last tds with
      | first_td :: _, Some last_td =>
          let match_id :=
            match link_text first_td with
            | Some text => text
            | None => cell_text first_td
            end in
          let raw_date := cell_text last_td in
          if nonempty match_id && nonempty raw_date then
            (match_id, raw_date, "match_" +:+ match_id +:+ ".pgn.tar.gz")
            :: _parse_html table_rows'
          else _parse_html table_rows'
      | _, _ => _parse_html table_rows'
      end
  end.

(** ** [Lc0MatchDownloaderApp]

    [run_scrape] stores what the scraper found, [run_download] and
    [run_process] run the fetcher and the normalizer; the CSV export and
    the printed statistics change nothing below.  [matches] stands for the
    scraped tuples as SQLite stores them, with integer ids. *)

Section app.
Context `{Runtime}.

Definition run_scrape (scraped_matches : list match_data) (w : world) : world :=
  with_db (insert_matches scraped_matches) w.

Definition run_download (net : session) (limit : option Z) (w : world) : world :=
  download_all net limit w.

Definition run_process (w : world) : world := process_all w.

Definition run_all (scraped_matches : list match_data) (net : session) (w : world)
  : world :=
  run_process (run_download net None (run_scrape scraped_matches w)).

End app.

(** A new installation: an empty store and empty directories. *)
Definition fresh : world := mk_world empty_db ∅ ∅ [].

(** * The vocabulary of the properties *)

(** The rows of the table that carry a given [match_id]. *)
Definition rows_with_id (id : Z) (db : MatchDatabase) : list (Z * match_row) :=
  filter (fun kv => kv.1 = id) (map_to_list (matches db)).

(** The dates of a result list run from the newest to the oldest. *)
Definition newest_first (a b : match_data) : Prop := String.le b.1.2 a.1.2.

(** Every processed entry was downloaded. *)
Definition processed_implies_success (db : MatchDatabase) : Prop :=
  ∀ id r, matches db !! id = Some r → processed r = true →
          download_status r = "success".

(** The stores reached from the empty one: by a bulk insert, by a status
    update of an entry the pending query returns, and by marking
    processed an entry that [process_all] selects. *)
Inductive reachable : MatchDatabase → Prop :=
  | reach_empty : reachable empty_db
  | reach_insert db ms :
      reachable db → reachable (insert_matches ms db)
  | reach_update db limit m status message :
      reachable db →
      m ∈ get_pending_downloads limit db →
      reachable (update_download_status m.1.1 status message db)
  | reach_mark db kv :
      reachable db →
      kv ∈ ready_rows db →
      reachable (mark_processed kv.1 db).

(** A store in which entry 42 was inserted, fetched and processed. *)
Definition store_42 : MatchDatabase :=
  mark_processed 42
    (update_download_status 42 "success" "Downloaded"
       (insert_matches [(42, "2021-03-15", "match_42.pgn.tar.gz")] empty_db)).

(** A string of blanks only. *)
Definition blank (s : string) : bool :=
  forallb Py.isspace (String.list_ascii_of_string s).

(** The lines seen so far are all non-blank: the next line is still in
    the header block. *)
Definition header_prefix (seen : list string) : bool :=
  forallb (fun l => negb (Py.strip l =? "")%string) seen.

(** One of the first 20 lines contains the text "[Date". *)
Definition mentions_date (lines : list string) : Prop :=
  ∃ i line, (i < 20)%nat ∧ lines !! i = Some line
            ∧ Py.contains "[Date" line = true.

(** What one input line contributes to the output.  [dated] says that one
    of the first 20 lines contains "[Date", [in_hdr] that no blank line
    came before this one.  The identity lines are the White and the Black
    tag, the tag name followed by a space; so for the Event tag.  Nothing
    is fixed for another line that starts with "[White", "[Black" or
    "[Event" (the WhiteElo or EventDate tag, say), and for the Event line
    of the header block only the Date line that may follow it is. *)
Definition chunk_ok (lc0_version date_only : string) (match_id : Z)
    (dated : Prop) (in_hdr : bool) (line : string) (chunk : list string) : Prop :=
  if Py.startswith line "[White" then
    Py.startswith line "[White " = true → chunk = [white_line lc0_version]
  else if Py.startswith line "[Black" then
    Py.startswith line "[Black " = true → chunk = [black_line lc0_version]
  else if Py.startswith line "[Event" then
    Py.startswith line "[Event " = true →
    if in_hdr
    then ∃ e, (dated → chunk = [e])
              ∧ (¬ dated → chunk = [e; date_line date_only])
    else chunk = [event_line match_id]
  else chunk = [line].

(** The rewrite as the specification words it: the White and the Black
    line take the canonical label, the Event line the provenance tag, other
    lines stay; a Date line is added somewhere when the header block, the
    lines before the first blank one, has none. *)
Definition spec_line (lc0_version : string) (match_id : Z) (line : string) : string :=
  if Py.startswith line "[White " then white_line lc0_version
  else if Py.startswith line "[Black " then black_line lc0_version
  else if Py.startswith line "[Event " then event_line match_id
  else line.

Fixpoint header_block (lines : list string) : list string :=
  match lines with
  | [] => []
  | l :: lines' => if (Py.strip l =? "")%string then [] else l :: header_block lines'
  end.

Definition spec_rewrite (lc0_version date_only : string) (match_id : Z)
    (lines out : list string) : Prop :=
  if existsb (fun l => Py.startswith l "[Date ") (header_block lines)
  then out = spec_line lc0_version match_id <$> lines
  else ∃ pre post,
         spec_line lc0_version match_id <$> lines = pre ++ post
         ∧ out = pre ++ date_line date_only :: post.

(** The date has reached the threshold of entry [i] of the version table
    and of no entry before it; [v] is the version of that entry. *)
Definition first_reached (d : naive) (i : nat) (v : string) : Prop :=
  ∃ vd, Config.VERSION_MAP !! i = Some (vd, v)
        ∧ naive_ge d vd = true
        ∧ ∀ j vd' v', (j < i)%nat → Config.VERSION_MAP !! j = Some (vd', v') →
                      naive_ge d vd' = false.

(** The version that goes with a parsed date: that of the first table
    entry whose threshold the date has reached; "v0.21.0" for a date before
    1970-01-01, which reaches none, and for an aware date, which Python
    refuses to compare with the naive thresholds. *)
Definition canonical_label (date : datetime) (v : string) : Prop :=
  match date with
  | Naive d =>
      (∃ i, first_reached d i v)
      ∨ (naive_ge d (datetime_ymd 1970 1 1) = false ∧ v = "v0.21.0")
  | Aware _ _ => v = "v0.21.0"
  end.

(** A line that holds a Date tag. *)
Definition date_tag (line : string) : bool := Py.startswith line "[Date ".

Section vocabulary.
Context `{Runtime}.

(** The payload of a candidate that answers 200 with a body that reads
    and validates; [None] for every other candidate. *)
Definition accepted (net : session) (pgn_filename url : string) : option bytes :=
  match net url with
  | Response status (Py.Ok content) =>
      if (status =? 200) && _validate_pgn_content content pgn_filename
      then Some content else None
  | _ => None
  end.

(** The units [process_match] reads from the file of an entry. *)
Definition pgn_units (pgn_filename : string) (content : bytes) : list string :=
  if Py.endswith pgn_filename ".tar.gz" then _extract_from_archive content
  else [read_text_utf8_ignore content].

(** The version that goes with the first token of an entry's date: the
    one the table gives the parsed date, and "v0.21.0" when
    [fromisoformat] rejects the token. *)
Definition label_of_token (tok v : string) : Prop :=
  match fromisoformat tok with
  | Py.Ok date => canonical_label date v
  | Py.Raise _ => v = "v0.21.0"
  end.

End vocabulary.

(** Files are only ever appended to: each file is still there, and its
    old content starts the new one. *)
Definition appended_only (before after : gmap string string) : Prop :=
  ∀ path content, before !! path = Some content →
                  ∃ suffix, after !! path = Some (content +:+ suffix).

(** The text [_extract_from_archive] reads from one member: that of a
    regular file whose name ends in ".pgn". *)
Definition pgn_member_text `{Runtime} (member : TarInfo) : option string :=
  if Py.endswith (name member) ".pgn" then
    match extractfile member with
    | FileData data => Some (decode_utf8_ignore data)
    | _ => None
    end
  else None.

(** A member the extraction stops at: a ".pgn" member that cannot be
    read. *)
Definition unreadable_pgn (member : TarInfo) : Prop :=
  Py.endswith (name member) ".pgn" = true ∧ extractfile member = Unreadable.

(** Whether [process_match] gives up on an entry with this date and file
    name, given the download directory: the file is missing, or the date
    is blank and some unit of the file is not. *)
Definition stays_unprocessed `{Runtime} (d f : string) (dir : gmap string bytes) : bool :=
  match dir !! f with
  | None => true
  | Some content =>
      match Py.split d with
      | [] => existsb (fun u => negb (Py.strip u =? "")%string) (pgn_units f content)
      | _ :: _ => false
      end
  end.

(** One operation of the state store, with any arguments. *)
Inductive store_step : MatchDatabase → MatchDatabase → Prop :=
  | step_insert db ms : store_step db (insert_matches ms db)
  | step_update db id status message :
      store_step db (update_download_status id status message db)
  | step_mark db id : store_step db (mark_processed id db).

(** [r'] is a later state of the row [r]: the same entry, with no fewer
    attempts, and still processed if it was. *)
Definition row_later (r r' : match_row) : Prop :=
  date r' = date r ∧ pgn_filename r' = pgn_filename r
  ∧ download_attempts r ≤ download_attempts r'
  ∧ (processed r = true → processed r' = true).

(** A row as the fetcher leaves it: never tried, or tried once with its
    outcome. *)
Definition tried_at_most_once (r : match_row) : Prop :=
  (download_status r = "pending" ∧ download_attempts r = 0)
  ∨ ((download_status r = "success" ∨ download_status r = "failed")
     ∧ download_attempts r = 1).

Section program_vocabulary.
Context `{Runtime}.

(** The states the phases of the application reach from a new
    installation, in any order and any number of times. *)
Inductive program_state : world → Prop :=
  | ps_fresh : program_state fresh
  | ps_scrape w ms : program_state w → program_state (run_scrape ms w)
  | ps_download w net limit :
      program_state w → program_state (run_download net limit w)
  | ps_process w : program_state w → program_state (run_process w).

(** Every downloaded file passes validation under its name. *)
Definition downloads_valid (w : world) : Prop :=
  ∀ f content, download_dir w !! f = Some content →
               _validate_pgn_content content f = true.

(** Every entry recorded as fetched has its file on disk. *)
Definition success_on_disk (w : world) : Prop :=
  ∀ id r, matches (db w) !! id = Some r → download_status r = "success" →
          is_Some (download_dir w !! pgn_filename r).

(** The four facts the phases keep together. *)
Definition healthy (w : world) : Prop :=
  (∀ id r, matches (db w) !! id = Some r → tried_at_most_once r)
  ∧ processed_implies_success (db w)
  ∧ downloads_valid w
  ∧ success_on_disk w.

End program_vocabulary.

(** * Properties *)

(** One step of the exception monad and of [try]/[except]. *)
Ltac py_step :=
  cbn [Py.bind Py.index0 Py.try_except mbind result_bind mret result_ret
       fmap option_fmap option_map default from_option snd fst].
Ltac py_step_in H :=
  cbn [Py.bind Py.index0 Py.try_except mbind result_bind mret result_ret
       fmap option_fmap option_map default from_option snd fst] in H.

(** ** Ordering of naive dates *)

Lemma lex_compare_not_Lt_trans (a b c : list Z) :
  lex_compare a b ≠ Lt → lex_compare b c ≠ Lt → lex_compare a c ≠ Lt.
Proof.
  revert b c. induction a as [|x a IH]; intros [|y b] [|z c]; simpl; try done.
  destruct (Z.compare_spec x y), (Z.compare_spec y z), (Z.compare_spec x z);
    try done; try lia; eauto.
Qed.

Lemma naive_ge_trans (a b c : naive) :
  naive_ge a b = true → naive_ge b c = true → naive_ge a c = true.
Proof.
  unfold naive_ge. intros Hab Hbc.
  pose proof (lex_compare_not_Lt_trans (fields a) (fields b) (fields c)) as Ht.
  destruct (lex_compare (fields a) (fields b)),
           (lex_compare (fields b) (fields c)),
           (lex_compare (fields a) (fields c)); try done; exfalso; by apply Ht.
Qed.

(** ** The version table *)

(** The loop on a naive date finds the first threshold the date reaches. *)
Lemma version_loop_naive (d : naive) (table : list (naive * string)) :
  version_loop (Naive d) table =
  Py.Ok (snd <$> List.find (fun e => naive_ge d (fst e)) table).
Proof.
  induction table as [|[vd v] table IH]; simpl; [done|].
  unfold mbind, result_bind; simpl.
  destruct (naive_ge d vd); [done|]. exact IH.
Qed.

Lemma version_loop_aware (d : naive) (off : Z) (vd : naive) (v : string)
    (table : list (naive * string)) :
  version_loop (Aware d off) ((vd, v) :: table) = Py.Raise Py.TypeError.
Proof. reflexivity. Qed.

(** [List.find] returns the first element that passes the test. *)
Lemma find_first {A : Type} (f : A → bool) (l : list A) (x : A) :
  List.find f l = Some x →
  ∃ i, l !! i = Some x ∧ f x = true ∧ ∀ j y, (j < i)%nat → l !! j = Some y → f y = false.
Proof.
  induction l as [|a l IH]; simpl; [done|].
  destruct (f a) eqn:Hfa.
  - intros [= ->]. exists 0%nat. split; [done|]. split; [done|]. intros; lia.
  - intros Hfind. destruct (IH Hfind) as (i & Hi & Hfx & Hbefore).
    exists (S i). split; [done|]. split; [done|].
    intros [|j] y Hj Hy; simpl in Hy.
    + by injection Hy as <-.
    + apply (Hbefore j); [lia|done].
Qed.

Lemma find_none_iff {A : Type} (f : A → bool) (l : list A) :
  List.find f l = None ↔ ∀ x, x ∈ l → f x = false.
Proof.
  induction l as [|a l IH]; simpl.
  - split; [|done]. intros _ x Hx. by apply elem_of_nil in Hx.
  - destruct (f a) eqn:Hfa.
    + split; [done|]. intros Hall. rewrite (Hall a) in Hfa; [done|]. left.
    + rewrite IH. split.
      * intros Hall x [->|Hx]%elem_of_cons; auto.
      * intros Hall x Hx. apply Hall. by right.
Qed.

(** Every threshold of the table is on or after 1970-01-01, its last. *)
Lemma VERSION_MAP_bottom (vd : naive) (v : string) :
  (vd, v) ∈ Config.VERSION_MAP → naive_ge vd (datetime_ymd 1970 1 1) = true.
Proof.
  unfold Config.VERSION_MAP. rewrite !elem_of_cons, elem_of_nil.
  intros Hin. repeat destruct Hin as [[= -> ->]|Hin]; try reflexivity. done.
Qed.

(** Falling out of the loop means the date is before 1970-01-01. *)
Lemma version_loop_falls_through (d : naive) :
  version_loop (Naive d) Config.VERSION_MAP = Py.Ok None
  ↔ naive_ge d (datetime_ymd 1970 1 1) = false.
Proof.
  rewrite version_loop_naive. split.
  - intros Hnone.
    destruct (List.find _ _) eqn:Hfind; [done|].
    rewrite find_none_iff in Hfind.
    apply (Hfind (datetime_ymd 1970 1 1, "v0.23.0")).
    unfold Config.VERSION_MAP. rewrite !elem_of_cons. tauto.
  - intros Hbefore.
    assert (List.find (fun e => naive_ge d (fst e)) Config.VERSION_MAP = None) as ->; [|done].
    apply find_none_iff. intros [vd v] Hin. simpl.
    destruct (naive_ge d vd) eqn:Hge; [|done].
    rewrite (naive_ge_trans d vd (datetime_ymd 1970 1 1) Hge) in Hbefore; [done|].
    by eapply VERSION_MAP_bottom.
Qed.

(** The table gives a date one version only. *)
Lemma first_reached_unique (d : naive) (i j : nat) (v v' : string) :
  first_reached d i v → first_reached d j v' → v = v'.
Proof.
  intros (vd & Hi & Hge & Hbefore) (vd' & Hj & Hge' & Hbefore').
  destruct (Nat.lt_trichotomy i j) as [Hlt|[->|Hlt]].
  - by rewrite (Hbefore' i vd v Hlt Hi) in Hge.
  - rewrite Hi in Hj. by injection Hj.
  - by rewrite (Hbefore j vd' v' Hlt Hj) in Hge'.
Qed.

Lemma canonical_label_reached (d : naive) (i : nat) (v v' : string) :
  first_reached d i v → canonical_label (Naive d) v' → v' = v.
Proof.
  intros Hreached [[j Hj]|[Hbefore _]].
  - by eapply first_reached_unique.
  - destruct Hreached as (vd & Hi & Hge & _).
    apply list_elem_of_lookup_2, VERSION_MAP_bottom in Hi.
    by rewrite (naive_ge_trans d vd _ Hge Hi) in Hbefore.
Qed.

(** A date in March 2021 has reached the threshold of "v0.27.0" first. *)
Lemma first_reached_2021 : first_reached (datetime_ymd 2021 3 15) 5 "v0.27.0".
Proof.
  exists (datetime_ymd 2021 1 1). split; [done|]. split; [done|].
  intros j vd' v' Hj Hlook.
  do 5 (destruct j as [|j]; [by injection Hlook as <- <-|]). lia.
Qed.

Section version_properties.
Context `{Runtime}.

Lemma get_lc0_version_of_naive (date_str tok : string) (rest : list string) (d : naive) :
  Py.split date_str = tok :: rest →
  fromisoformat tok = Py.Ok (Naive d) →
  _get_lc0_version date_str =
    default "v0.21.0" (snd <$> List.find (fun e => naive_ge d (fst e)) Config.VERSION_MAP).
Proof.
  intros Hsplit Hparse. unfold _get_lc0_version, _get_lc0_version_try.
  rewrite Hsplit. py_step. rewrite Hparse. py_step.
  rewrite version_loop_naive. py_step.
  by destruct (List.find _ _).
Qed.

Lemma get_lc0_version_of_aware (date_str tok : string) (rest : list string)
    (d : naive) (off : Z) :
  Py.split date_str = tok :: rest →
  fromisoformat tok = Py.Ok (Aware d off) →
  _get_lc0_version date_str = "v0.21.0".
Proof.
  intros Hsplit Hparse. unfold _get_lc0_version, _get_lc0_version_try.
  rewrite Hsplit. py_step. rewrite Hparse. py_step.
  unfold Config.VERSION_MAP. by rewrite version_loop_aware.
Qed.

(** The label of a date that parses is the one the table gives it. *)
Lemma get_lc0_version_canonical (date_str tok : string) (rest : list string)
    (date : datetime) :
  Py.split date_str = tok :: rest →
  fromisoformat tok = Py.Ok date →
  canonical_label date (_get_lc0_version date_str).
Proof.
  intros Hsplit Hparse. destruct date as [d|d off]; cbn [canonical_label].
  - rewrite (get_lc0_version_of_naive _ _ _ _ Hsplit Hparse).
    destruct (List.find _ _) as [[vd v]|] eqn:Hfind.
    + left. apply find_first in Hfind as (i & Hi & Hvd & Hbefore).
      exists i, vd. split; [done|]. split; [done|].
      intros j vd' v' Hj Hlook. exact (Hbefore j (vd', v') Hj Hlook).
    + right. split; [|done]. apply version_loop_falls_through.
      by rewrite version_loop_naive, Hfind.
  - by eapply get_lc0_version_of_aware.
Qed.

Lemma get_lc0_version_label (date_str tok : string) (rest : list string) :
  Py.split date_str = tok :: rest →
  label_of_token tok (_get_lc0_version date_str).
Proof.
  intros Hsplit. unfold label_of_token.
  destruct (fromisoformat tok) as [date|e] eqn:Hparse.
  - by eapply get_lc0_version_canonical.
  - unfold _get_lc0_version, _get_lc0_version_try.
    rewrite Hsplit. py_step. by rewrite Hparse.
Qed.

(** C10, as the code has it: [_get_lc0_version] always returns one of the
    known version strings.  A date with no first token or whose first
    token [fromisoformat] rejects gives "v0.21.0"; so does a date parsed
    to an aware value, whose comparison with the first threshold raises
    [TypeError] into the same [except]; a date parsed to a naive value on
    or after 1970-01-01 gives the version of the first table entry whose
    threshold it reaches; a date parsed to a naive value before 1970-01-01
    gives "v0.21.0"; and the loop is left without a match by those naive
    dates before 1970-01-01 only. *)
Theorem get_lc0_version_total (date_str : string) :
  _get_lc0_version date_str ∈ "v0.21.0" :: (snd <$> Config.VERSION_MAP)
  ∧ (∀ e, Py.index0 (Py.split date_str) ≫= fromisoformat = Py.Raise e →
       _get_lc0_version date_str = "v0.21.0")
  ∧ (∀ tok rest d off,
       Py.split date_str = tok :: rest →
       fromisoformat tok = Py.Ok (Aware d off) →
       _get_lc0_version date_str = "v0.21.0")
  ∧ (∀ tok rest d,
       Py.split date_str = tok :: rest →
       fromisoformat tok = Py.Ok (Naive d) →
       naive_ge d (datetime_ymd 1970 1 1) = true →
       ∃ i vd v,
         Config.VERSION_MAP !! i = Some (vd, v)
         ∧ naive_ge d vd = true
         ∧ (∀ j vd' v', (j < i)%nat → Config.VERSION_MAP !! j = Some (vd', v') →
              naive_ge d vd' = false)
         ∧ _get_lc0_version date_str = v)
  ∧ (∀ tok rest d,
       Py.split date_str = tok :: rest →
       fromisoformat tok = Py.Ok (Naive d) →
       naive_ge d (datetime_ymd 1970 1 1) = false →
       _get_lc0_version date_str = "v0.21.0")
  ∧ (∀ date, version_loop date Config.VERSION_MAP = Py.Ok None ↔
       ∃ d, date = Naive d ∧ naive_ge d (datetime_ymd 1970 1 1) = false).
Proof.
  split; [|split; [|split; [|split; [|split]]]].
  - unfold _get_lc0_version, _get_lc0_version_try.
    destruct (Py.split date_str) as [|tok rest]; py_step; [left|].
    destruct (fromisoformat tok) as [[d|d off]|e]; py_step; [|left..].
    rewrite version_loop_naive. py_step.
    destruct (List.find _ _) as [[vd v]|] eqn:Hfind; py_step; [|left].
    right. apply list_elem_of_fmap. exists (vd, v). split; [done|].
    apply find_first in Hfind as (i & Hi & _).
    by eapply list_elem_of_lookup_2.
  - intros e He. unfold _get_lc0_version, _get_lc0_version_try.
    destruct (Py.split date_str) as [|tok rest]; py_step_in He; py_step; [done|].
    by destruct (fromisoformat tok).
  - intros tok rest d off Hsplit Hparse.
    by eapply get_lc0_version_of_aware.
  - intros tok rest d Hsplit Hparse Hge.
    rewrite (get_lc0_version_of_naive _ _ _ _ Hsplit Hparse).
    destruct (List.find _ _) as [[vd v]|] eqn:Hfind.
    + apply find_first in Hfind as (i & Hi & Hvd & Hbefore).
      exists i, vd, v. split; [done|]. split; [done|]. split; [|done].
      intros j vd' v' Hj Hlook. exact (Hbefore j (vd', v') Hj Hlook).
    + pose proof (proj1 (version_loop_falls_through d)) as Hfall.
      rewrite version_loop_naive, Hfind in Hfall.
      rewrite Hfall in Hge; done.
  - intros tok rest d Hsplit Hparse Hbefore.
    rewrite (get_lc0_version_of_naive _ _ _ _ Hsplit Hparse).
    apply version_loop_falls_through in Hbefore.
    rewrite version_loop_naive in Hbefore.
    by destruct (List.find _ _).
  - intros [d|d off].
    + rewrite version_loop_falls_through. split.
      * intros Hd. by exists d.
      * by intros (d' & [= <-] & Hd).
    + split; [done|]. by intros (d' & ? & _).
Qed.

End version_properties.

Example get_lc0_version_2021 :
  @_get_lc0_version Demo.runtime "2021-03-15 18:22:04" = "v0.27.0".
Proof. reflexivity. Qed.

Example get_lc0_version_unparseable :
  @_get_lc0_version Demo.runtime "yesterday" = "v0.21.0"
  ∧ @_get_lc0_version Demo.runtime "" = "v0.21.0".
Proof. split; reflexivity. Qed.

Lemma get_lc0_version_total_witness :
  (∃ i vd v,
     Config.VERSION_MAP !! i = Some (vd, v)
     ∧ naive_ge (datetime_ymd 2021 3 15) vd = true
     ∧ (∀ j vd' v', (j < i)%nat → Config.VERSION_MAP !! j = Some (vd', v') →
          naive_ge (datetime_ymd 2021 3 15) vd' = false)
     ∧ @_get_lc0_version Demo.runtime "2021-03-15 18:22:04" = v)
  ∧ @_get_lc0_version Demo.runtime "1969-12-31" = "v0.21.0"
  ∧ @_get_lc0_version Demo.runtime "2021-03-15T18:22:04+02:00" = "v0.21.0".
Proof.
  pose proof (@get_lc0_version_total Demo.runtime "2021-03-15 18:22:04")
    as (_ & _ & _ & Hreached & _).
  pose proof (@get_lc0_version_total Demo.runtime "1969-12-31")
    as (_ & _ & _ & _ & Hbefore & _).
  pose proof (@get_lc0_version_total Demo.runtime "2021-03-15T18:22:04+02:00")
    as (_ & _ & Haware & _).
  split; [|split].
  - apply (Hreached "2021-03-15" ["18:22:04"]); by vm_compute.
  - apply (Hbefore "1969-12-31" [] (datetime_ymd 1969 12 31)); by vm_compute.
  - apply (Haware "2021-03-15T18:22:04+02:00" [] (mk_naive 2021 3 15 18 22 4 0) 7200);
      by vm_compute.
Defined.

(** C10 as stated fails on the code.  The date below is parseable and
    after 1970-01-01, and the first threshold it has reached is that of
    "v0.27.0"; but [fromisoformat] reads it as an aware value, the
    comparison with the first threshold raises [TypeError], and the
    [except] returns "v0.21.0", the version of no table entry. *)
Lemma get_lc0_version_aware_date :
  let date_str := "2021-03-15T18:22:04+00:00" in
  let d := mk_naive 2021 3 15 18 22 4 0 in
  Py.split date_str = [date_str]
  ∧ @fromisoformat Demo.runtime date_str = Py.Ok (Aware d 0)
  ∧ naive_ge d (datetime_ymd 1970 1 1) = true
  ∧ first_reached d 5 "v0.27.0"
  ∧ datetime_ge (Aware d 0) (datetime_ymd 2025 1 1) = Py.Raise Py.TypeError
  ∧ @_get_lc0_version Demo.runtime date_str = "v0.21.0"
  ∧ ¬ (∃ i, first_reached d i (@_get_lc0_version Demo.runtime date_str)).
Proof.
  cbn zeta.
  split; [by vm_compute|]. split; [by vm_compute|]. split; [by vm_compute|].
  split; [|split; [done|split; [by vm_compute|]]].
  - exists (datetime_ymd 2021 1 1). split; [done|]. split; [by vm_compute|].
    intros j vd' v' Hj Hlook.
    do 5 (destruct j as [|j]; [injection Hlook as <- <-; by vm_compute|]). lia.
  - assert (@_get_lc0_version Demo.runtime "2021-03-15T18:22:04+00:00" = "v0.21.0")
      as -> by (by vm_compute).
    intros (i & vd & Hlook & _).
    do 10 (destruct i as [|i]; [by injection Hlook|]). done.
Qed.

(** ** Payload validation *)

Lemma prefix_String (a b : ascii) (p s : string) :
  String.prefix (String a p) (String b s) = Ascii.eqb a b && String.prefix p s.
Proof.
  cbn [String.prefix]. destruct (ascii_dec a b) as [->|Hne].
  - by rewrite Ascii.eqb_refl.
  - apply Ascii.eqb_neq in Hne. by rewrite Hne.
Qed.

(** Two strings that differ in their first characters are not both
    prefixes of one string. *)
Lemma prefix_first_differs (a b : ascii) (p q s : string) :
  a ≠ b → String.prefix (String a p) s = true → String.prefix (String b q) s = false.
Proof.
  intros Hne. destruct s as [|c s]; [done|]. rewrite !prefix_String.
  destruct (Ascii.eqb_spec a c) as [<-|]; [|done]. intros _.
  apply Ascii.eqb_neq in Hne. rewrite Ascii.eqb_sym in Hne. by rewrite Hne.
Qed.

(** A line that starts with a text starts with every beginning of it. *)
Lemma startswith_app (line p q : string) :
  Py.startswith line (p +:+ q) = true → Py.startswith line p = true.
Proof.
  unfold Py.startswith. revert line.
  induction p as [|a p IH]; intros line; [by destruct line|].
  destruct line as [|b line]; [done|].
  change (String a p +:+ q) with (String a (p +:+ q)). rewrite !prefix_String.
  intros [-> Hrest]%andb_true_iff. by rewrite (IH _ Hrest).
Qed.

Lemma endswith_pgn_not_targz (filename : string) :
  Py.endswith filename ".pgn" = true → Py.endswith filename ".tar.gz" = false.
Proof.
  unfold Py.endswith. intros Hpgn.
  change (String.rev ".tar.gz") with "zg.rat.".
  change (String.rev ".pgn") with "ngp." in Hpgn.
  by eapply prefix_first_differs; [|exact Hpgn].
Qed.

Section validation_properties.
Context `{Runtime}.

(** C9: [_validate_pgn_content] returns a boolean for every content and
    file name; an exception inside it gives [false]; a file name ending
    in neither ".tar.gz" nor ".pgn" gives [false]; and it gives [true]
    exactly when the name ends in ".tar.gz" and the archive opens and
    lists a member ending in ".pgn", or the name ends in ".pgn" and the
    first 500 decoded characters contain "[Event" or "[White". *)
Theorem validate_pgn_content_total (content : bytes) (filename : string) :
  (∀ e, _validate_pgn_content_try content filename = Py.Raise e →
     _validate_pgn_content content filename = false)
  ∧ (∀ b, _validate_pgn_content_try content filename = Py.Ok b →
     _validate_pgn_content content filename = b)
  ∧ (Py.endswith filename ".tar.gz" = true →
     ∀ e, targz_getmembers content = Py.Raise e →
     _validate_pgn_content content filename = false)
  ∧ (Py.endswith filename ".tar.gz" = false →
     Py.endswith filename ".pgn" = false →
     _validate_pgn_content content filename = false)
  ∧ (_validate_pgn_content content filename = true ↔
       (Py.endswith filename ".tar.gz" = true
        ∧ ∃ members m,
            targz_getmembers content = Py.Ok members
            ∧ m ∈ members ∧ Py.endswith (name m) ".pgn" = true)
       ∨ (Py.endswith filename ".pgn" = true
          ∧ (Py.contains "[Event" (Py.slice_to 500 (decode_utf8_ignore content)) = true
             ∨ Py.contains "[White" (Py.slice_to 500 (decode_utf8_ignore content)) = true))).
Proof.
  unfold _validate_pgn_content, _validate_pgn_content_try.
  split; [by intros e ->|]. split; [by intros b ->|].
  split; [by intros -> e ->|]. split; [by intros -> ->|].
  destruct (Py.endswith filename ".tar.gz") eqn:Htar.
  - destruct (targz_getmembers content) as [members|e]; py_step.
    + rewrite existsb_exists. split.
      * intros (m & Hin & Hm). left. split; [done|]. exists members, m.
        by rewrite list_elem_of_In.
      * intros [(_ & members' & m & [= <-] & Hin & Hm)|[Hpgn _]].
        -- exists m. by rewrite <-list_elem_of_In.
        -- apply endswith_pgn_not_targz in Hpgn. congruence.
    + split; [done|]. intros [(_ & members' & m & [=] & _)|[Hpgn _]].
      apply endswith_pgn_not_targz in Hpgn. congruence.
  - destruct (Py.endswith filename ".pgn") eqn:Hpgn; py_step.
    + rewrite orb_true_iff. split.
      * intros Hmark. right. done.
      * intros [[[=] _]|[_ Hmark]]. done.
    + split; [done|]. by intros [[[=] _]|[[=] _]].
Qed.

End validation_properties.

Example validate_rejects_html :
  @_validate_pgn_content Demo.runtime
     (String.list_byte_of_string "<html>404</html>") "match_7.pgn.tar.gz" = false.
Proof. reflexivity. Qed.

(** ** The state store: bulk insert *)

Lemma insert_or_ignore_keeps (t : gmap Z match_row) (m : match_data) (id : Z) (r : match_row) :
  t !! id = Some r → insert_or_ignore t m !! id = Some r.
Proof.
  destruct m as [[id' d] f]. unfold insert_or_ignore. intros Hrow.
  destruct (t !! id') eqn:Hid'; [done|].
  rewrite lookup_insert_ne; [done|]. intros ->. congruence.
Qed.

Lemma insert_or_ignore_present (t : gmap Z match_row) (m : match_data) :
  is_Some (insert_or_ignore t m !! m.1.1).
Proof.
  destruct m as [[id d] f]. unfold insert_or_ignore. simpl.
  destruct (t !! id) eqn:Hid; [by rewrite Hid|].
  rewrite lookup_insert_eq. by eexists.
Qed.

Lemma insert_or_ignore_noop (t : gmap Z match_row) (m : match_data) :
  is_Some (t !! m.1.1) → insert_or_ignore t m = t.
Proof.
  destruct m as [[id d] f]. unfold insert_or_ignore. simpl.
  by intros [r ->].
Qed.

Lemma foldl_insert_keeps (ms : list match_data) (t : gmap Z match_row) (id : Z) (r : match_row) :
  t !! id = Some r → foldl insert_or_ignore t ms !! id = Some r.
Proof.
  revert t. induction ms as [|m ms IH]; intros t Hrow; simpl; [done|].
  apply IH. by apply insert_or_ignore_keeps.
Qed.

Lemma foldl_insert_present (ms : list match_data) (t : gmap Z match_row) (m : match_data) :
  m ∈ ms → is_Some (foldl insert_or_ignore t ms !! m.1.1).
Proof.
  revert t. induction ms as [|m' ms IH]; intros t Hin; simpl.
  - by apply elem_of_nil in Hin.
  - apply elem_of_cons in Hin as [->|Hin]; [|by apply IH].
    destruct (insert_or_ignore_present t m') as [r Hr].
    exists r. by apply foldl_insert_keeps.
Qed.

Lemma foldl_insert_noop (ms : list match_data) (t : gmap Z match_row) :
  (∀ m, m ∈ ms → is_Some (t !! m.1.1)) → foldl insert_or_ignore t ms = t.
Proof.
  induction ms as [|m ms IH]; intros Hall; simpl; [done|].
  rewrite insert_or_ignore_noop by (apply Hall; left).
  apply IH. intros m' Hm'. apply Hall. by right.
Qed.

Lemma filter_key_unique (l : list (Z * match_row)) (id : Z) (r : match_row) :
  NoDup (l.*1) → (id, r) ∈ l → filter (fun kv => kv.1 = id) l = [(id, r)].
Proof.
  induction l as [|[k v] l IH]; intros Hnodup Hin.
  - by apply elem_of_nil in Hin.
  - rewrite fmap_cons in Hnodup. apply NoDup_cons in Hnodup as [Hfresh Hnodup].
    rewrite filter_cons. simpl.
    apply elem_of_cons in Hin as [[= <- <-]|Hin].
    + rewrite decide_True by done. f_equal.
      destruct (filter _ l) as [|[k' v'] rest] eqn:Hrest; [done|].
      assert ((k', v') ∈ filter (fun kv : Z * match_row => kv.1 = id) l) as Hin
        by (rewrite Hrest; left).
      apply list_elem_of_filter in Hin as [Hk' Hin]. simpl in Hk'. subst k'.
      destruct Hfresh. apply list_elem_of_fmap. by exists (id, v').
    + rewrite decide_False; [by apply IH|].
      simpl in *. intros ->. apply Hfresh. apply list_elem_of_fmap. by exists (id, r).
Qed.

Lemma rows_with_id_one (db : MatchDatabase) (id : Z) (r : match_row) :
  matches db !! id = Some r → rows_with_id id db = [(id, r)].
Proof.
  intros Hrow. apply filter_key_unique.
  - apply NoDup_fst_map_to_list.
  - by apply elem_of_map_to_list.
Qed.

(** C6: [insert_matches] never touches a row that is already there (its
    status, attempts and processed flag stay as they are); inserting the
    same entries a second time changes nothing; and after inserting one
    entry twice the table holds exactly one row with its id. *)
Theorem insert_matches_idempotent (db : MatchDatabase) (ms : list match_data) (e : match_data) :
  (∀ id r, matches db !! id = Some r → matches (insert_matches ms db) !! id = Some r)
  ∧ insert_matches ms (insert_matches ms db) = insert_matches ms db
  ∧ insert_matches [e] (insert_matches [e] db) = insert_matches [e] db
  ∧ (∃ r, rows_with_id e.1.1 (insert_matches [e] (insert_matches [e] db)) = [(e.1.1, r)])
  ∧ (∀ r, matches db !! e.1.1 = Some r → insert_matches [e] db = db).
Proof.
  assert (Hidem : ∀ l, insert_matches l (insert_matches l db) = insert_matches l db).
  { intros l. unfold insert_matches. simpl. f_equal.
    apply foldl_insert_noop. intros m Hm. by apply foldl_insert_present. }
  split; [|split; [|split; [|split]]].
  - intros id r Hrow. unfold insert_matches. simpl. by apply foldl_insert_keeps.
  - apply Hidem.
  - apply Hidem.
  - rewrite Hidem.
    destruct (insert_or_ignore_present (matches db) e) as [r Hr].
    exists r. by apply rows_with_id_one.
  - intros r Hrow. unfold insert_matches. simpl.
    rewrite insert_or_ignore_noop by (by rewrite Hrow). by destruct db.
Qed.

(** ** The state store: the pending query *)

#[global] Instance date_desc_trans : Transitive date_desc.
Proof. intros a b c Hab Hbc. unfold date_desc in *. by etrans. Qed.

#[global] Instance date_desc_total : Total date_desc.
Proof.
  intros a b. unfold date_desc.
  destruct (total String.le (date b.2) (date a.2)); auto.
Qed.

#[global] Instance date_asc_trans : Transitive date_asc.
Proof. intros a b c Hab Hbc. unfold date_asc in *. by etrans. Qed.

#[global] Instance date_asc_total : Total date_asc.
Proof.
  intros a b. unfold date_asc.
  destruct (total String.le (date a.2) (date b.2)); auto.
Qed.

Lemma is_pending_spec (r : match_row) :
  is_pending r = true ↔
  (download_status r = "pending" ∨ download_status r = "retry")
  ∧ download_attempts r < Config.MAX_RETRIES.
Proof.
  unfold is_pending.
  rewrite andb_true_iff, orb_true_iff, !String.eqb_eq, Z.ltb_lt. tauto.
Qed.

Lemma elem_of_pending_rows (db : MatchDatabase) (id : Z) (r : match_row) :
  (id, r) ∈ pending_rows db ↔ matches db !! id = Some r ∧ is_pending r = true.
Proof.
  unfold pending_rows. rewrite merge_sort_Permutation, list_elem_of_filter.
  rewrite elem_of_map_to_list. simpl. tauto.
Qed.

Lemma NoDup_pending_ids (db : MatchDatabase) : NoDup ((pending_rows db).*1).
Proof.
  unfold pending_rows. rewrite merge_sort_Permutation.
  eapply sublist_NoDup; [apply (NoDup_fst_map_to_list (matches db))|].
  apply fmap_sublist, sublist_filter.
Qed.

Lemma StronglySorted_take {A : Type} (R : relation A) (n : nat) (l : list A) :
  StronglySorted R l → StronglySorted R (take n l).
Proof.
  intros Hl. rewrite <-(take_drop n l) in Hl.
  by apply StronglySorted_app_1_l in Hl.
Qed.

(** C5: without a limit [get_pending_downloads] returns, once each, the
    rows whose status is pending or retry and whose attempts are below
    [MAX_RETRIES]; every result is ordered by date, newest first; with a
    positive limit [n] the result is the first [n] rows of the unlimited
    result, exactly [n] of them when that many are eligible. *)
Theorem get_pending_downloads_spec (db : MatchDatabase) (limit : option Z) :
  (∀ id d f,
     (id, d, f) ∈ get_pending_downloads None db ↔
     ∃ r, matches db !! id = Some r ∧ date r = d ∧ pgn_filename r = f
          ∧ (download_status r = "pending" ∨ download_status r = "retry")
          ∧ download_attempts r < Config.MAX_RETRIES)
  ∧ NoDup ((get_pending_downloads None db).*1.*1)
  ∧ StronglySorted newest_first (get_pending_downloads limit db)
  ∧ (∀ n, limit = Some n → 0 < n →
       get_pending_downloads limit db
       = take (Z.to_nat n) (get_pending_downloads None db))
  ∧ (∀ n, limit = Some n → 0 < n →
       (Z.to_nat n ≤ length (get_pending_downloads None db))%nat →
       length (get_pending_downloads limit db) = Z.to_nat n).
Proof.
  assert (Hsorted : StronglySorted date_desc (pending_rows db)).
  { apply StronglySorted_merge_sort; apply _. }
  assert (Hlim : ∀ n, 0 < n →
    get_pending_downloads (Some n) db
    = take (Z.to_nat n) (get_pending_downloads None db)).
  { intros n Hn. unfold get_pending_downloads, sql_limit.
    rewrite (proj2 (Z.eqb_neq n 0)) by lia.
    rewrite (proj2 (Z.ltb_ge n 0)) by lia.
    apply fmap_take. }
  split; [|split; [|split; [|split]]].
  - intros id d f. unfold get_pending_downloads.
    rewrite list_elem_of_fmap. split.
    + intros ([id' r] & [= -> -> ->] & Hin).
      apply elem_of_pending_rows in Hin as [Hrow Hpend].
      apply is_pending_spec in Hpend. exists r. simpl. tauto.
    + intros (r & Hrow & <- & <- & Hpend).
      exists (id, r). split; [done|].
      apply elem_of_pending_rows. split; [done|]. by apply is_pending_spec.
  - unfold get_pending_downloads.
    rewrite <-!list_fmap_compose.
    exact (NoDup_pending_ids db).
  - assert (Hfmap : ∀ rows, StronglySorted date_desc rows →
      StronglySorted newest_first (to_match_data <$> rows)).
    { intros rows. by apply StronglySorted_fmap. }
    unfold get_pending_downloads. apply Hfmap.
    destruct limit as [n|]; [|done].
    destruct (n =? 0); [done|]. unfold sql_limit.
    destruct (n <? 0); [done|]. by apply StronglySorted_take.
  - intros n -> Hn. by apply Hlim.
  - intros n -> Hn Hlen. rewrite Hlim by done. by apply length_take_le.
Qed.

(** ** The state store: processed entries were downloaded *)

Lemma elem_of_ready_rows (db : MatchDatabase) (id : Z) (r : match_row) :
  (id, r) ∈ ready_rows db ↔ matches db !! id = Some r ∧ is_ready r = true.
Proof.
  unfold ready_rows. rewrite merge_sort_Permutation, list_elem_of_filter.
  rewrite elem_of_map_to_list. simpl. tauto.
Qed.

Lemma is_ready_spec (r : match_row) :
  is_ready r = true ↔ download_status r = "success" ∧ processed r = false.
Proof.
  unfold is_ready. rewrite andb_true_iff, negb_true_iff, String.eqb_eq. tauto.
Qed.

Lemma elem_of_get_pending_downloads (db : MatchDatabase) (limit : option Z) (m : match_data) :
  m ∈ get_pending_downloads limit db →
  ∃ r, matches db !! m.1.1 = Some r ∧ is_pending r = true.
Proof.
  unfold get_pending_downloads. rewrite list_elem_of_fmap.
  intros ([id r] & -> & Hin). exists r. simpl.
  apply elem_of_pending_rows.
  destruct limit as [n|]; [|done].
  destruct (n =? 0); [done|]. unfold sql_limit in Hin.
  destruct (n <? 0); [done|].
  eapply elem_of_sublist; [exact Hin|]. apply sublist_take.
Qed.

Lemma pending_not_success (r : match_row) :
  is_pending r = true → download_status r ≠ "success".
Proof.
  rewrite is_pending_spec. intros [[Hst|Hst] _] Hs; rewrite Hs in Hst; discriminate.
Qed.

Lemma insert_matches_lookup (ms : list match_data) (t : gmap Z match_row) (id : Z) (r : match_row) :
  foldl insert_or_ignore t ms !! id = Some r →
  t !! id = Some r ∨ (processed r = false ∧ download_status r = "pending").
Proof.
  revert t. induction ms as [|[[id' d] f] ms IH]; intros t; simpl; [by left|].
  intros Hrow. destruct (IH _ Hrow) as [Hprev|Hnew]; [|by right].
  destruct (t !! id') eqn:Hid'; [by left|].
  destruct (decide (id' = id)) as [->|Hne].
  - rewrite lookup_insert_eq in Hprev. injection Hprev as <-. by right.
  - rewrite lookup_insert_ne in Hprev by done. by left.
Qed.

Lemma insert_matches_invariant (ms : list match_data) (db : MatchDatabase) :
  processed_implies_success db → processed_implies_success (insert_matches ms db).
Proof.
  intros Hinv id r Hrow Hproc. unfold insert_matches in Hrow. simpl in Hrow.
  apply insert_matches_lookup in Hrow as [Hold|[Hnew _]].
  - by eapply Hinv.
  - congruence.
Qed.

(** A status update keeps the invariant when the row it touches has not
    been processed. *)
Lemma update_download_status_invariant (id : Z) (status message : string) (db : MatchDatabase) :
  (∀ r, matches db !! id = Some r → processed r = false) →
  processed_implies_success db →
  processed_implies_success (update_download_status id status message db).
Proof.
  intros Hfresh Hinv id' r'. unfold update_download_status. simpl.
  destruct (decide (id = id')) as [<-|Hne].
  - rewrite lookup_alter_eq. destruct (matches db !! id) as [r|] eqn:Hrow; [|done].
    simpl. intros [= <-]. simpl. rewrite (Hfresh r); done.
  - rewrite lookup_alter_ne by done. apply Hinv.
Qed.

(** Marking a row processed keeps the invariant when its status is
    success. *)
Lemma mark_processed_invariant (id : Z) (db : MatchDatabase) :
  (∀ r, matches db !! id = Some r → download_status r = "success") →
  processed_implies_success db →
  processed_implies_success (mark_processed id db).
Proof.
  intros Hok Hinv id' r'. unfold mark_processed. simpl.
  destruct (decide (id = id')) as [<-|Hne].
  - rewrite lookup_alter_eq. destruct (matches db !! id) as [r|] eqn:Hrow; [|done].
    simpl. intros [= <-] _. simpl. by apply Hok.
  - rewrite lookup_alter_ne by done. apply Hinv.
Qed.

(** C7: in every store reached from the empty one by bulk inserts, by
    status updates of entries returned by the pending query and by
    marking processed entries selected by [process_all], a processed
    entry has status success. *)
Theorem processed_implies_success_reachable (db : MatchDatabase) :
  reachable db → processed_implies_success db.
Proof.
  induction 1 as [|db ms _ IH|db limit m status message _ IH Hin|db [id r] _ IH Hin].
  - intros id r Hrow. simpl in Hrow. by rewrite lookup_empty in Hrow.
  - by apply insert_matches_invariant.
  - apply update_download_status_invariant; [|done].
    intros r Hrow.
    apply elem_of_get_pending_downloads in Hin as (r' & Hrow' & Hpend).
    rewrite Hrow in Hrow'. injection Hrow' as <-.
    destruct (processed r) eqn:Hproc; [|done].
    exfalso. eapply pending_not_success; [exact Hpend|]. by eapply IH.
  - apply mark_processed_invariant; [|done].
    intros r' Hrow. simpl in Hrow.
    apply elem_of_ready_rows in Hin as [Hrow' Hready].
    rewrite Hrow in Hrow'. injection Hrow' as ->.
    by apply is_ready_spec in Hready as [? _].
Qed.

Lemma processed_implies_success_reachable_witness :
  matches store_42 !! 42
    = Some (mk_row "2021-03-15" "match_42.pgn.tar.gz" None "success" 1 true)
  ∧ processed_implies_success store_42.
Proof.
  split; [by vm_compute|].
  apply processed_implies_success_reachable. unfold store_42.
  apply (reach_mark _ (42, mk_row "2021-03-15" "match_42.pgn.tar.gz" None "success" 1 false)).
  - apply (reach_update _ None (42, "2021-03-15", "match_42.pgn.tar.gz")).
    + apply reach_insert, reach_empty.
    + vm_compute. left.
  - vm_compute. left.
Defined.

(** ** The fetcher: the first accepted candidate wins *)

Section fetcher_properties.
Context `{Runtime}.

Lemma try_urls_rejected (net : session) (id : Z) (f url : string)
    (rest : list string) (w : world) :
  accepted net f url = None →
  try_urls net id f (url :: rest) w = try_urls net id f rest (note_request url w).
Proof.
  unfold accepted. cbn [try_urls].
  destruct (net url) as [status [content|e]| |]; try done.
  - destruct (status =? 200); [|by destruct (status =? 404)].
    by destruct (_validate_pgn_content content f).
  - destruct (status =? 200); [done|]. by destruct (status =? 404).
Qed.

Lemma try_urls_accepted (net : session) (id : Z) (f url : string)
    (rest : list string) (w : world) (content : bytes) :
  accepted net f url = Some content →
  try_urls net id f (url :: rest) w =
  (true,
   with_db (update_download_status id "success" ("Downloaded from " +:+ url))
           (write_bytes f content (note_request url w))).
Proof.
  unfold accepted. cbn [try_urls].
  destruct (net url) as [status [content'|e]| |]; try done.
  destruct (status =? 200); [|done].
  destruct (_validate_pgn_content content' f); [|done].
  by intros [= ->].
Qed.

(** Every candidate rejected: the loop runs out, all candidates were
    requested, and the status written is "failed" whatever the attempts
    counter holds. *)
Lemma try_urls_exhausted (net : session) (id : Z) (f : string)
    (urls : list string) (w : world) :
  (∀ url, url ∈ urls → accepted net f url = None) →
  try_urls net id f urls w =
  (false,
   mk_world (update_download_status id "failed" "All URL patterns failed" (db w))
            (download_dir w) (processed_dir w) (requests w ++ urls)).
Proof.
  revert w. induction urls as [|url rest IH]; intros w Hall.
  - cbn [try_urls]. unfold with_db. by rewrite app_nil_r.
  - rewrite try_urls_rejected by (apply Hall; left).
    rewrite IH by (intros u Hu; apply Hall; by right).
    cbn [note_request db download_dir processed_dir requests].
    by rewrite <-app_assoc.
Qed.

Lemma try_urls_first_accepted (net : session) (id : Z) (f : string)
    (urls : list string) (w : world) (k : nat) (url : string) (content : bytes) :
  urls !! k = Some url →
  accepted net f url = Some content →
  (∀ j u, (j < k)%nat → urls !! j = Some u → accepted net f u = None) →
  try_urls net id f urls w =
  (true,
   mk_world (update_download_status id "success" ("Downloaded from " +:+ url) (db w))
            (<[f := content]> (download_dir w)) (processed_dir w)
            (requests w ++ take (S k) urls)).
Proof.
  revert w k. induction urls as [|u rest IH]; intros w k Hk Hacc Hbefore; [done|].
  destruct k as [|k].
  - injection Hk as ->. by rewrite (try_urls_accepted _ _ _ _ _ _ _ Hacc).
  - rewrite try_urls_rejected by (apply (Hbefore 0%nat); [lia|done]).
    rewrite (IH _ k Hk Hacc).
    + cbn [note_request db download_dir processed_dir requests].
      by rewrite <-app_assoc.
    + intros j u' Hj Hu'. apply (Hbefore (S j)); [lia|done].
Qed.

(** The loop looks at the server only through the candidates it
    requests. *)
Lemma accepted_ext (net net' : session) (f url : string) :
  net' url = net url → accepted net' f url = accepted net f url.
Proof. unfold accepted. by intros ->. Qed.

(** C8: when candidate [k] is the first that answers 200 with a payload
    that validates, [download_match] returns true, has requested the
    candidates up to [k] and none after it, has written that payload
    under the entry's file name, has recorded success with one more
    attempt and one log row, and gives the same result against any
    server that agrees on the candidates up to [k]. *)
Theorem download_match_first_accepted (net : session) (id : Z) (d f : string)
    (w : world) (k : nat) (url : string) (content : bytes) :
  url_patterns 1 id !! k = Some url →
  accepted net f url = Some content →
  (∀ j u, (j < k)%nat → url_patterns 1 id !! j = Some u → accepted net f u = None) →
  let w' := (download_match net (id, d, f) w).2 in
  (download_match net (id, d, f) w).1 = true
  ∧ requests w' = requests w ++ take (S k) (url_patterns 1 id)
  ∧ download_dir w' = <[f := content]> (download_dir w)
  ∧ processed_dir w' = processed_dir w
  ∧ matches (db w') = alter (set_status "success") id (matches (db w))
  ∧ download_log (db w')
    = download_log (db w) ++ [mk_log id "success" ("Downloaded from " +:+ url)]
  ∧ (∀ net' : session,
       (∀ j u, (j ≤ k)%nat → url_patterns 1 id !! j = Some u → net' u = net u) →
       download_match net' (id, d, f) w = download_match net (id, d, f) w).
Proof.
  intros Hk Hacc Hbefore. cbn zeta. unfold download_match, _extract_run_id.
  rewrite (try_urls_first_accepted _ _ _ _ _ _ _ _ Hk Hacc Hbefore).
  repeat (split; [done|]).
  intros net' Hagree. apply try_urls_first_accepted; [done|..].
  - rewrite <-Hacc. apply accepted_ext. by apply (Hagree k).
  - intros j u Hj Hu. rewrite <-(Hbefore j u Hj Hu).
    apply accepted_ext. apply (Hagree j); [lia|done].
Qed.

End fetcher_properties.

Lemma download_match_first_accepted_witness :
  let w := Demo.scraped 42 "2021-03-15" in
  let r := @download_match Demo.runtime (Demo.third_candidate 42)
             (42, "2021-03-15", "match_42.pgn.tar.gz") w in
  r.1 = true
  ∧ requests r.2 = take 3 (url_patterns 1 42)
  ∧ download_dir r.2 !! "match_42.pgn.tar.gz" = Some Demo.archive
  ∧ (download_status <$> matches (db r.2) !! 42) = Some "success".
Proof.
  cbn zeta.
  destruct (@download_match_first_accepted Demo.runtime (Demo.third_candidate 42)
              42 "2021-03-15" "match_42.pgn.tar.gz" (Demo.scraped 42 "2021-03-15")
              2%nat
              (Config.STORAGE_BASE_URL +:+ "match_" +:+ Py.str 42 +:+ ".pgn.tar.gz")
              Demo.archive)
    as (Htrue & Hreq & Hdir & _ & Hrows & _).
  - by vm_compute.
  - by vm_compute.
  - intros [|[|j]] u Hj Hu; [| |lia]; vm_compute in Hu; injection Hu as <-; by vm_compute.
  - split; [exact Htrue|]. split; [exact Hreq|].
    split; [by rewrite Hdir, lookup_insert_eq|].
    rewrite Hrows. by vm_compute.
Defined.

(** ** The fetcher: an exhausted entry *)

(** C1 on the code: entry 7, pending with no attempt made, meets a server
    whose every candidate fails validation.  The first run records
    "failed" after one attempt, below [MAX_RETRIES]; the entry then leaves
    the pending list, so the second and third runs do nothing and the log
    keeps a single row. *)
Theorem exhausted_entry_fails_at_once :
  let fetch := @download_all Demo.runtime Demo.malformed None in
  let w0 := Demo.scraped 7 "2021-03-15" in
  let w1 := fetch w0 in
  let w3 := fetch (fetch w1) in
  matches (db w0) !! 7
    = Some (mk_row "2021-03-15" "match_7.pgn.tar.gz" None "pending" 0 false)
  ∧ matches (db w1) !! 7
    = Some (mk_row "2021-03-15" "match_7.pgn.tar.gz" None "failed" 1 false)
  ∧ get_pending_downloads None (db w1) = []
  ∧ w3 = w1
  ∧ download_log (db w3) = [mk_log 7 "failed" "All URL patterns failed"].
Proof. cbn zeta. repeat split; by vm_compute. Qed.

(** ** Blank lines and tag lines *)

Lemma chars_rev_app (s t : string) :
  String.list_ascii_of_string (String.rev_app s t)
  = rev_append (String.list_ascii_of_string s) (String.list_ascii_of_string t).
Proof. revert t. induction s as [|c s IH]; intros t; simpl; [done|]. by rewrite IH. Qed.

Lemma chars_rev (s : string) :
  String.list_ascii_of_string (String.rev s) = reverse (String.list_ascii_of_string s).
Proof. unfold String.rev. by rewrite chars_rev_app. Qed.

Lemma rev_empty (s : string) : String.rev s = "" → s = "".
Proof.
  intros Hrev. apply (f_equal String.list_ascii_of_string) in Hrev.
  rewrite chars_rev in Hrev. simpl in Hrev.
  destruct s as [|c s]; [done|]. simpl in Hrev.
  rewrite reverse_cons in Hrev. by destruct (reverse _).
Qed.

Lemma blank_rev (s : string) : blank (String.rev s) = blank s.
Proof.
  unfold blank. rewrite chars_rev.
  apply eq_true_iff_eq. rewrite !forallb_forall.
  by setoid_rewrite <-list_elem_of_In; setoid_rewrite elem_of_reverse.
Qed.

Lemma lstrip_cases (s : string) :
  (Py.lstrip s = "" ∧ blank s = true)
  ∨ (∃ c t, Py.lstrip s = String c t ∧ Py.isspace c = false).
Proof.
  induction s as [|c s IH]; [by left|]. unfold blank in *. simpl.
  destruct (Py.isspace c) eqn:Hc; [exact IH|]. right. by exists c, s.
Qed.

(** [s.strip() == ''] holds only for a string of blanks. *)
Lemma strip_empty_blank (s : string) : Py.strip s = "" → blank s = true.
Proof.
  unfold Py.strip. intros Hs. apply rev_empty in Hs.
  destruct (lstrip_cases (String.rev (Py.lstrip s))) as [[_ Hblank]|(c & t & Hc & _)];
    [|congruence].
  rewrite blank_rev in Hblank.
  destruct (lstrip_cases s) as [[_ Hb]|(c & t & Hc & Hns)]; [done|].
  rewrite Hc in Hblank. unfold blank in Hblank. simpl in Hblank. by rewrite Hns in Hblank.
Qed.

(** A line that starts with an opening bracket is not blank. *)
Lemma bracket_line_not_blank (line p : string) :
  Py.startswith line (String "[" p) = true → (Py.strip line =? "")%string = false.
Proof.
  unfold Py.startswith. intros Hstart. apply String.eqb_neq. intros Hstrip.
  apply strip_empty_blank in Hstrip.
  destruct line as [|c line]; [done|]. rewrite prefix_String in Hstart.
  apply andb_true_iff in Hstart as [Hc _]. apply Ascii.eqb_eq in Hc as <-.
  unfold blank in Hstrip. simpl in Hstrip. done.
Qed.

(** Two tags that differ in their first letter do not start one line. *)
Lemma tag_first_letter (a b c : ascii) (p q line : string) :
  b ≠ c →
  Py.startswith line (String a (String b p)) = true →
  Py.startswith line (String a (String c q)) = false.
Proof.
  unfold Py.startswith. intros Hne.
  destruct line as [|x line]; [done|]. rewrite !prefix_String.
  destruct (Ascii.eqb a x); [|done]. simpl.
  by apply prefix_first_differs.
Qed.

(** ** The normalizer: what the rewrite does to each line *)

Lemma header_prefix_snoc (seen : list string) (line : string) :
  header_prefix (seen ++ [line])
  = header_prefix seen && negb (Py.strip line =? "")%string.
Proof. unfold header_prefix. rewrite forallb_app. simpl. by rewrite andb_true_r. Qed.

Lemma header_prefix_bracket (seen : list string) (line p : string) :
  Py.startswith line (String "[" p) = true →
  header_prefix (seen ++ [line]) = header_prefix seen.
Proof.
  intros Hstart. rewrite header_prefix_snoc, (bracket_line_not_blank _ _ Hstart).
  apply andb_true_r.
Qed.

Lemma event_not_white (line : string) :
  Py.startswith line "[Event" = true → Py.startswith line "[White" = false.
Proof. by apply tag_first_letter. Qed.

Lemma event_not_black (line : string) :
  Py.startswith line "[Event" = true → Py.startswith line "[Black" = false.
Proof. by apply tag_first_letter. Qed.

Lemma white_not_black (line : string) :
  Py.startswith line "[White" = true → Py.startswith line "[Black" = false.
Proof. by apply tag_first_letter. Qed.

(** The look-ahead of the loop. *)
Lemma date_in_first_20_spec (lines : list string) :
  date_in_first_20 lines = true ↔ mentions_date lines.
Proof.
  unfold date_in_first_20, mentions_date. rewrite existsb_exists. split.
  - intros (l & Hin & Hl). apply list_elem_of_In, elem_of_take in Hin as (i & Hi & Hlt).
    by exists i, l.
  - intros (i & l & Hlt & Hi & Hl). exists l. split; [|done].
    apply list_elem_of_In, elem_of_take. by exists i.
Qed.

(** The loop, one chunk per input line. *)
Lemma rewrite_lines_chunks (all : list string) (v date_only : string) (id : Z)
    (seen todo : list string) :
  ∃ chunks,
    rewrite_lines all v date_only id (header_prefix seen) todo = concat chunks
    ∧ length chunks = length todo
    ∧ ∀ i line chunk, todo !! i = Some line → chunks !! i = Some chunk →
        chunk_ok v date_only id (mentions_date all)
                 (header_prefix (seen ++ take i todo)) line chunk.
Proof.
  revert seen. induction todo as [|line todo IH]; intros seen.
  { exists []. split; [done|]. split; [done|]. intros i ?? Hi. by destruct i. }
  assert (Hcons : ∀ chunk0 h',
    h' = header_prefix (seen ++ [line]) →
    chunk_ok v date_only id (mentions_date all) (header_prefix seen) line chunk0 →
    ∃ chunks,
      chunk0 ++ rewrite_lines all v date_only id h' todo = concat chunks
      ∧ length chunks = length (line :: todo)
      ∧ ∀ i l chunk, (line :: todo) !! i = Some l → chunks !! i = Some chunk →
          chunk_ok v date_only id (mentions_date all)
                   (header_prefix (seen ++ take i (line :: todo))) l chunk).
  { intros chunk0 h' -> Hchunk0.
    destruct (IH (seen ++ [line])) as (chunks & Heq & Hlen & Hall).
    exists (chunk0 :: chunks). rewrite Heq. split; [done|].
    split; [simpl; by rewrite Hlen|].
    intros [|i] l chunk Hl Hc; simpl in Hl, Hc.
    - injection Hl as <-. injection Hc as <-. by rewrite take_0, app_nil_r.
    - rewrite firstn_cons, (cons_middle line), app_assoc. by apply Hall. }
  cbn [rewrite_lines].
  destruct (header_prefix seen) eqn:Hhdr; cbn [andb].
  - destruct (Py.startswith line "[Event") eqn:Hevent.
    + rewrite app_comm_cons. apply Hcons.
      * by rewrite (header_prefix_bracket _ _ _ Hevent).
      * unfold chunk_ok.
        rewrite (event_not_white _ Hevent), (event_not_black _ Hevent), Hevent.
        exists line. pose proof (date_in_first_20_spec all) as [Hthen Hback].
        destruct (date_in_first_20 all); cbn [negb app]; split; intros Hdated.
        -- done.
        -- destruct Hdated. by apply Hthen.
        -- by specialize (Hback Hdated).
        -- done.
    + destruct (Py.startswith line "[White") eqn:Hwhite.
      { apply (Hcons [white_line v]).
        - by rewrite (header_prefix_bracket _ _ _ Hwhite).
        - unfold chunk_ok. by rewrite Hwhite. }
      destruct (Py.startswith line "[Black") eqn:Hblack.
      { apply (Hcons [black_line v]).
        - by rewrite (header_prefix_bracket _ _ _ Hblack).
        - unfold chunk_ok. by rewrite Hwhite, Hblack. }
      apply (Hcons [line]).
      * rewrite header_prefix_snoc, Hhdr. by destruct (Py.strip line =? "")%string.
      * unfold chunk_ok. by rewrite Hwhite, Hblack, Hevent.
  - destruct (Py.startswith line "[White") eqn:Hwhite.
    { apply (Hcons [white_line v]).
      - by rewrite (header_prefix_bracket _ _ _ Hwhite).
      - unfold chunk_ok. by rewrite Hwhite. }
    destruct (Py.startswith line "[Black") eqn:Hblack.
    { apply (Hcons [black_line v]).
      - by rewrite (header_prefix_bracket _ _ _ Hblack).
      - unfold chunk_ok. by rewrite Hwhite, Hblack. }
    destruct (Py.startswith line "[Event") eqn:Hevent.
    { apply (Hcons [event_line id]).
      - by rewrite (header_prefix_bracket _ _ _ Hevent).
      - unfold chunk_ok. by rewrite Hwhite, Hblack, Hevent. }
    apply (Hcons [line]).
    * by rewrite header_prefix_snoc, Hhdr.
    * unfold chunk_ok. by rewrite Hwhite, Hblack, Hevent.
Qed.

Section rewrite_properties.
Context `{Runtime}.

(** C3, as the code has it: for an entry date with a first token, the
    output is made of one chunk per input line, in order.  The White and
    the Black line become the canonical label line, with the version the
    table gives the date; an Event line after the first blank line becomes
    the provenance tag; a line that starts with none of "[White", "[Black"
    and "[Event" is kept as it is; and the Event line of the header block
    is followed by a Date line exactly when none of the first 20 lines
    contains "[Date". *)
Theorem process_pgn_content_lines (pgn_text match_date : string) (match_id : Z)
    (date_only : string) (rest : list string) :
  Py.split match_date = date_only :: rest →
  label_of_token date_only (_get_lc0_version match_date)
  ∧ ∃ chunks,
      _process_pgn_content pgn_text match_date match_id
      = Py.Ok (Py.join (String Py.newline "") (concat chunks))
      ∧ length chunks = length (Py.split_on Py.newline pgn_text)
      ∧ ∀ i line chunk,
          Py.split_on Py.newline pgn_text !! i = Some line →
          chunks !! i = Some chunk →
          chunk_ok (_get_lc0_version match_date) date_only match_id
                   (mentions_date (Py.split_on Py.newline pgn_text))
                   (header_prefix (take i (Py.split_on Py.newline pgn_text)))
                   line chunk.
Proof.
  intros Hsplit. split; [by eapply get_lc0_version_label|].
  unfold _process_pgn_content. rewrite Hsplit. py_step.
  destruct (rewrite_lines_chunks (Py.split_on Py.newline pgn_text)
              (_get_lc0_version match_date) date_only match_id []
              (Py.split_on Py.newline pgn_text)) as (chunks & Heq & Hlen & Hall).
  exists chunks. change (header_prefix []) with true in Heq. by rewrite Heq.
Qed.

End rewrite_properties.

Lemma process_pgn_content_lines_witness :
  @label_of_token Demo.runtime "2021-03-15" "v0.27.0"
  ∧ ∃ chunks,
    @_process_pgn_content Demo.runtime Demo.game "2021-03-15 18:22:04" 42
    = Py.Ok (Py.join (String Py.newline "") (concat chunks))
    ∧ length chunks = 6%nat
    ∧ (∃ e, chunks !! 0%nat = Some [e; Demo.tag "Date" "2021-03-15"])
    ∧ chunks !! 1%nat = Some [Demo.tag "White" "Lc0 v0.27.0"]
    ∧ chunks !! 2%nat = Some [Demo.tag "Black" "Lc0 v0.27.0"]
    ∧ chunks !! 3%nat = Some [Demo.tag "Result" "1-0"]
    ∧ chunks !! 4%nat = Some [""]
    ∧ chunks !! 5%nat = Some ["1. e4 e5 1-0"].
Proof.
  destruct (@process_pgn_content_lines Demo.runtime Demo.game "2021-03-15 18:22:04" 42
              "2021-03-15" ["18:22:04"]) as (Hlabel & chunks & Heq & Hlen & Hall).
  - by vm_compute.
  - assert (Hsix : length chunks = 6%nat) by (rewrite Hlen; by vm_compute).
    split; [exact Hlabel|].
    exists chunks. split; [exact Heq|]. split; [exact Hsix|].
    split; [|split; [|split; [|split; [|split]]]].
    + destruct (lookup_lt_is_Some_2 chunks 0) as [chunk Hchunk]; [lia|].
      rewrite Hchunk.
      destruct (Hall 0%nat (Demo.tag "Event" "Test match") chunk) as (e & _ & Hinject);
        [by vm_compute|done|by vm_compute|].
      exists e. rewrite Hinject; [done|].
      rewrite <-date_in_first_20_spec. by vm_compute.
    + destruct (lookup_lt_is_Some_2 chunks 1) as [chunk Hchunk]; [lia|].
      rewrite Hchunk. f_equal.
      apply (Hall 1%nat (Demo.tag "White" "lc0.net.1") chunk);
        [by vm_compute|done|by vm_compute].
    + destruct (lookup_lt_is_Some_2 chunks 2) as [chunk Hchunk]; [lia|].
      rewrite Hchunk. f_equal.
      apply (Hall 2%nat (Demo.tag "Black" "lc0.net.2") chunk);
        [by vm_compute|done|by vm_compute].
    + destruct (lookup_lt_is_Some_2 chunks 3) as [chunk Hchunk]; [lia|].
      rewrite Hchunk. f_equal.
      apply (Hall 3%nat (Demo.tag "Result" "1-0") chunk); [by vm_compute|done].
    + destruct (lookup_lt_is_Some_2 chunks 4) as [chunk Hchunk]; [lia|].
      rewrite Hchunk. f_equal.
      apply (Hall 4%nat "" chunk); [by vm_compute|done].
    + destruct (lookup_lt_is_Some_2 chunks 5) as [chunk Hchunk]; [lia|].
      rewrite Hchunk. f_equal.
      apply (Hall 5%nat "1. e4 e5 1-0" chunk); [by vm_compute|done].
Defined.

(** C3 as stated fails on the code.  The Event line of the header block
    is kept, not replaced by the provenance tag; a header block with
    neither an Event nor a Date line gets no Date line; and a header block
    with an Event line and no Date line gets no Date line either when
    "[Date" occurs further down among the first 20 lines, here in the
    second game of the file. *)
Lemma process_pgn_content_not_as_specified :
  (let out := [ Demo.tag "Event" "Test match"; Demo.tag "Date" "2021-03-15";
                Demo.tag "White" "Lc0 v0.27.0"; Demo.tag "Black" "Lc0 v0.27.0";
                Demo.tag "Result" "1-0"; ""; "1. e4 e5 1-0" ] in
   @_process_pgn_content Demo.runtime Demo.game "2021-03-15" 42
   = Py.Ok (Demo.lines out)
   ∧ ¬ spec_rewrite "v0.27.0" "2021-03-15" 42
         (Py.split_on Py.newline Demo.game) out)
  ∧ (let out := [ Demo.tag "White" "Lc0 v0.27.0"; Demo.tag "Black" "Lc0 v0.27.0"; "";
                  "1. d4 d5 1/2-1/2" ] in
     @_process_pgn_content Demo.runtime Demo.game_without_event "2021-03-15" 42
     = Py.Ok (Demo.lines out)
     ∧ ¬ spec_rewrite "v0.27.0" "2021-03-15" 42
           (Py.split_on Py.newline Demo.game_without_event) out)
  ∧ (let out := [ Demo.tag "Event" "Test match";
                  Demo.tag "White" "Lc0 v0.27.0"; Demo.tag "Black" "Lc0 v0.27.0";
                  Demo.tag "Result" "1-0"; ""; "1. e4 e5 1-0"; "";
                  Demo.tag "Event" "Lc0 match 42"; Demo.tag "Date" "2021.03.14";
                  Demo.tag "White" "Lc0 v0.27.0"; Demo.tag "Black" "Lc0 v0.27.0";
                  Demo.tag "Result" "0-1"; ""; "1. d4 d5 0-1" ] in
     @_process_pgn_content Demo.runtime Demo.two_games "2021-03-15" 42
     = Py.Ok (Demo.lines out)
     ∧ existsb date_tag (header_block (Py.split_on Py.newline Demo.two_games)) = false
     ∧ ¬ spec_rewrite "v0.27.0" "2021-03-15" 42
           (Py.split_on Py.newline Demo.two_games) out).
Proof.
  split; [|split]; cbn zeta; (split; [by vm_compute|]); [| |split; [by vm_compute|]];
    unfold spec_rewrite.
  - assert (existsb (fun l => Py.startswith l "[Date ")
              (header_block (Py.split_on Py.newline Demo.game)) = false) as ->
      by (by vm_compute).
    intros (pre & post & Hmap & Hout).
    assert (Hin : Demo.tag "Event" "Test match" ∈ pre ++ date_line "2021-03-15" :: post)
      by (rewrite <-Hout; left).
    assert (Hin' : Demo.tag "Event" "Test match" ∈ pre ++ post).
    { apply elem_of_app in Hin as [Hin|Hin]; [apply elem_of_app; by left|].
      apply elem_of_cons in Hin as [Heq|Hin]; [|apply elem_of_app; by right].
      by vm_compute in Heq. }
    rewrite <-Hmap in Hin'. apply (bool_decide_pack _) in Hin'.
    by vm_compute in Hin'.
  - assert (existsb (fun l => Py.startswith l "[Date ")
              (header_block (Py.split_on Py.newline Demo.game_without_event)) = false) as ->
      by (by vm_compute).
    intros (pre & post & Hmap & Hout).
    apply (f_equal length) in Hmap, Hout.
    rewrite length_fmap in Hmap. rewrite length_app in Hmap, Hout.
    assert (length (Py.split_on Py.newline Demo.game_without_event) = 4%nat) as Hfour
      by (by vm_compute).
    rewrite Hfour in Hmap. cbn [length] in Hout. lia.
  - assert (existsb (fun l => Py.startswith l "[Date ")
              (header_block (Py.split_on Py.newline Demo.two_games)) = false) as ->
      by (by vm_compute).
    intros (pre & post & Hmap & Hout).
    apply (f_equal length) in Hmap, Hout.
    rewrite length_fmap in Hmap. rewrite length_app in Hmap, Hout.
    assert (length (Py.split_on Py.newline Demo.two_games) = 14%nat) as Hlines
      by (by vm_compute).
    rewrite Hlines in Hmap. cbn [length] in Hout. lia.
Qed.

(** ** The normalizer: one entry *)

Section normalizer_properties.
Context `{Runtime}.

(** Where each output line of the loop comes from. *)
Lemma rewrite_lines_elem (all : list string) (v date_only : string) (id : Z)
    (h : bool) (todo : list string) (l : string) :
  l ∈ rewrite_lines all v date_only id h todo →
  l = white_line v ∨ l = black_line v ∨ l = event_line id ∨ l = date_line date_only
  ∨ (l ∈ todo ∧ Py.startswith l "[White" = false ∧ Py.startswith l "[Black" = false).
Proof.
  revert h. induction todo as [|line todo IH]; intros h; cbn [rewrite_lines].
  { intros Hin. by apply elem_of_nil in Hin. }
  assert (Hrec : ∀ h', l ∈ rewrite_lines all v date_only id h' todo →
    l = white_line v ∨ l = black_line v ∨ l = event_line id ∨ l = date_line date_only
    ∨ (l ∈ line :: todo ∧ Py.startswith l "[White" = false
       ∧ Py.startswith l "[Black" = false)).
  { intros h' Hin. destruct (IH h' Hin) as [?|[?|[?|[?|(? & ? & ?)]]]]; auto.
    do 4 right. split; [by right|done]. }
  destruct (h && Py.startswith line "[Event") eqn:Hhe.
  - apply andb_true_iff in Hhe as [_ Hevent].
    intros [->|Hin]%elem_of_cons.
    + do 4 right. split; [left|].
      by rewrite (event_not_white _ Hevent), (event_not_black _ Hevent).
    + apply elem_of_app in Hin as [Hin|Hin]; [|by eapply Hrec].
      destruct (negb (date_in_first_20 all)); [|by apply elem_of_nil in Hin].
      apply list_elem_of_singleton in Hin. auto.
  - destruct (Py.startswith line "[White") eqn:Hwhite.
    { intros [->|Hin]%elem_of_cons; [auto|by eapply Hrec]. }
    destruct (Py.startswith line "[Black") eqn:Hblack.
    { intros [->|Hin]%elem_of_cons; [auto|by eapply Hrec]. }
    destruct (Py.startswith line "[Event") eqn:Hevent.
    { intros [->|Hin]%elem_of_cons; [auto|by eapply Hrec]. }
    intros [->|Hin]%elem_of_cons; [|by eapply Hrec].
    do 4 right. split; [left|done].
Qed.

(** A line of the output that starts with "[White" is the canonical one;
    the same for "[Black". *)
Lemma rewrite_lines_identity (all : list string) (v date_only : string) (id : Z)
    (h : bool) (todo : list string) (l : string) :
  l ∈ rewrite_lines all v date_only id h todo →
  (Py.startswith l "[White" = true → l = white_line v)
  ∧ (Py.startswith l "[Black" = true → l = black_line v).
Proof.
  intros Hin.
  pose proof (white_not_black (white_line v) eq_refl) as Hwb.
  pose proof (tag_first_letter "[" "B" "W" "lack" "hite" (black_line v) ltac:(done) eq_refl) as Hbw.
  pose proof (event_not_white (event_line id) eq_refl) as Hew.
  pose proof (event_not_black (event_line id) eq_refl) as Heb.
  pose proof (tag_first_letter "[" "D" "W" "ate" "hite" (date_line date_only) ltac:(done) eq_refl) as Hdw.
  pose proof (tag_first_letter "[" "D" "B" "ate" "lack" (date_line date_only) ltac:(done) eq_refl) as Hdb.
  destruct (rewrite_lines_elem _ _ _ _ _ _ _ Hin)
    as [->|[->|[->|[->|(_ & Hw & Hb)]]]]; split; intros Hs; congruence.
Qed.

(** A Date line of the input is kept. *)
Lemma rewrite_lines_keeps_date (all : list string) (v date_only : string) (id : Z)
    (h : bool) (todo : list string) (l : string) :
  l ∈ todo → Py.startswith l "[Date" = true →
  l ∈ rewrite_lines all v date_only id h todo.
Proof.
  intros Hin Hdate. revert h.
  induction todo as [|line todo IH]; intros h; [by apply elem_of_nil in Hin|].
  cbn [rewrite_lines].
  apply elem_of_cons in Hin as [<-|Hin].
  - rewrite (tag_first_letter "[" "D" "E" "ate" "vent" l) by done.
    rewrite (tag_first_letter "[" "D" "W" "ate" "hite" l) by done.
    rewrite (tag_first_letter "[" "D" "B" "ate" "lack" l) by done.
    rewrite andb_false_r. left.
  - specialize (IH Hin).
    destruct (h && Py.startswith line "[Event").
    { right. apply elem_of_app. right. apply IH. }
    destruct (Py.startswith line "[White"); [right; apply IH|].
    destruct (Py.startswith line "[Black"); [right; apply IH|].
    destruct (Py.startswith line "[Event"); right; apply IH.
Qed.

(** The Event line of the header block brings a Date line with it when
    none of the first 20 lines contains "[Date". *)
Lemma rewrite_lines_injects_date (v date_only : string) (id : Z)
    (pre post : list string) (e : string) (chunks : list (list string)) :
  header_prefix pre = true →
  Py.startswith e "[Event " = true →
  ¬ mentions_date (pre ++ e :: post) →
  length chunks = length (pre ++ e :: post) →
  (∀ i line chunk, (pre ++ e :: post) !! i = Some line → chunks !! i = Some chunk →
     chunk_ok v date_only id (mentions_date (pre ++ e :: post))
              (header_prefix (take i (pre ++ e :: post))) line chunk) →
  ∃ e', chunks !! length pre = Some [e'; date_line date_only].
Proof.
  intros Hpre Hevent Hdated Hlen Hall.
  destruct (lookup_lt_is_Some_2 chunks (length pre)) as [chunk Hchunk].
  { rewrite Hlen, length_app. simpl. lia. }
  specialize (Hall (length pre) e chunk).
  rewrite list_lookup_middle in Hall by done. specialize (Hall eq_refl Hchunk).
  rewrite take_app_length, Hpre in Hall.
  pose proof (startswith_app e "[Event" " " Hevent) as Hevent'.
  unfold chunk_ok in Hall.
  rewrite (event_not_white _ Hevent'), (event_not_black _ Hevent'), Hevent' in Hall.
  destruct (Hall Hevent) as (e' & _ & Hinject). exists e'. by rewrite Hchunk, (Hinject Hdated).
Qed.

(** An archive that cannot be opened yields no unit, and the entry is
    marked processed all the same. *)
Lemma process_match_unreadable_archive (id : Z) (d f : string) (w : world)
    (content : bytes) (e : Py.exn) :
  Py.endswith f ".tar.gz" = true →
  download_dir w !! f = Some content →
  targz_getmembers content = Py.Raise e →
  process_match id d f w = with_db (mark_processed id) w.
Proof.
  intros Htar Hfile Hbad. unfold process_match, _extract_from_archive.
  by rewrite Hfile, Htar, Hbad.
Qed.

(** C4, as the code has it: an entry that [process_all] selects (status
    success, not yet processed), whose file holds one non-blank unit with
    the Event line in its header block and whose date starts with a token
    [fromisoformat] accepts.  [process_match] appends the rewritten unit
    and the two newlines to the file of that year and month, touches no
    other file, and marks the entry processed.  The appended unit is the
    source line by line: the White and the Black line carry the label the
    version table gives the date, a line that starts with none of
    "[White", "[Black" and "[Event" is kept, so a Date line of the source
    stays; and a Date line for the entry's date follows the Event line
    when none of the first 20 lines of the source contains "[Date". *)
Theorem process_match_single_unit (id : Z) (r : match_row) (w : world)
    (content : bytes) (text tok : string) (rest : list string) (dt : datetime)
    (pre post : list string) (e : string) :
  matches (db w) !! id = Some r →
  is_ready r = true →
  download_dir w !! pgn_filename r = Some content →
  pgn_units (pgn_filename r) content = [text] →
  (Py.strip text =? "")%string = false →
  Py.split (date r) = tok :: rest →
  fromisoformat tok = Py.Ok dt →
  Py.split_on Py.newline text = pre ++ e :: post →
  header_prefix pre = true →
  Py.startswith e "[Event " = true →
  ∃ v chunks,
    let lines := Py.split_on Py.newline text in
    let unit := Py.join (String Py.newline "") (concat chunks) in
    let path := month_file (date_part dt) in
    canonical_label dt v
    ∧ _process_pgn_content text (date r) id = Py.Ok unit
    ∧ process_match id (date r) (pgn_filename r) w
      = mk_world (mark_processed id (db w)) (download_dir w)
          (<[path := default "" (processed_dir w !! path) +:+ unit +:+ games_separator]>
             (processed_dir w))
          (requests w)
    ∧ matches (db (process_match id (date r) (pgn_filename r) w)) !! id
      = Some (set_processed r)
    ∧ length chunks = length lines
    ∧ (∀ i line chunk, lines !! i = Some line → chunks !! i = Some chunk →
         chunk_ok v tok id (mentions_date lines) (header_prefix (take i lines))
                  line chunk)
    ∧ (∀ l, l ∈ lines → Py.startswith l "[Date" = true → l ∈ concat chunks)
    ∧ (¬ mentions_date lines →
       ∃ e', chunks !! length pre = Some [e'; date_line tok]).
Proof.
  intros Hrow _ Hfile Hunits Hnonblank Hsplit Hparse Hlines Hpre Hevent.
  set (lines := Py.split_on Py.newline text) in *.
  set (v := _get_lc0_version (date r)).
  destruct (rewrite_lines_chunks lines v tok id [] lines) as (chunks & Heq & Hlen & Hall).
  change (header_prefix []) with true in Heq.
  exists v, chunks. cbn zeta.
  assert (Hunit : _process_pgn_content text (date r) id
    = Py.Ok (Py.join (String Py.newline "") (concat chunks))).
  { unfold _process_pgn_content. rewrite Hsplit. py_step.
    fold lines. fold v. by rewrite Heq. }
  assert (Hmatch : process_match id (date r) (pgn_filename r) w
    = mk_world (mark_processed id (db w)) (download_dir w)
        (<[month_file (date_part dt) :=
             default "" (processed_dir w !! month_file (date_part dt))
             +:+ Py.join (String Py.newline "") (concat chunks)
             +:+ games_separator]> (processed_dir w))
        (requests w)).
  { unfold process_match. rewrite Hfile.
    change (if Py.endswith (pgn_filename r) ".tar.gz"
            then _extract_from_archive content
            else [read_text_utf8_ignore content])
      with (pgn_units (pgn_filename r) content).
    rewrite Hunits. cbn [process_units]. rewrite Hnonblank, Hunit.
    unfold _organize_by_month, _organize_by_month_try.
    rewrite Hsplit. py_step. rewrite Hparse. py_step.
    unfold with_db, append_text. by cbn [db download_dir processed_dir requests]. }
  split; [by eapply get_lc0_version_canonical|].
  split; [exact Hunit|]. split; [exact Hmatch|]. split.
  { rewrite Hmatch. cbn [db mark_processed matches].
    by rewrite lookup_alter_eq, Hrow. }
  split; [exact Hlen|]. split; [exact Hall|]. split.
  { intros l Hl Hdate. rewrite <-Heq. by apply rewrite_lines_keeps_date. }
  intros Hdated. subst lines. rewrite Hlines in Hdated, Hlen, Hall.
  by eapply rewrite_lines_injects_date.
Qed.

End normalizer_properties.

Lemma process_match_single_unit_witness :
  let d := "2021-03-15 18:22:04" in
  let w := Demo.fetched 42 d Demo.archive in
  let w' := @process_match Demo.runtime 42 d "match_42.pgn.tar.gz" w in
  ∃ chunks,
    processed_dir w' !! "2021/03/lc0_matches_2021_03.pgn"
    = Some (Py.join (String Py.newline "") (concat chunks) +:+ games_separator)
    ∧ length chunks = 6%nat
    ∧ (∃ e', chunks !! 0%nat = Some [e'; Demo.tag "Date" "2021-03-15"])
    ∧ chunks !! 1%nat = Some [Demo.tag "White" "Lc0 v0.27.0"]
    ∧ chunks !! 2%nat = Some [Demo.tag "Black" "Lc0 v0.27.0"]
    ∧ chunks !! 5%nat = Some ["1. e4 e5 1-0"]
    ∧ (processed <$> matches (db w') !! 42) = Some true.
Proof.
  cbn zeta.
  destruct (@process_match_single_unit Demo.runtime 42
              (mk_row "2021-03-15 18:22:04" "match_42.pgn.tar.gz" None "success" 1 false)
              (Demo.fetched 42 "2021-03-15 18:22:04" Demo.archive)
              Demo.archive Demo.game "2021-03-15" ["18:22:04"]
              (Naive (datetime_ymd 2021 3 15))
              [] [ Demo.tag "White" "lc0.net.1"; Demo.tag "Black" "lc0.net.2";
                   Demo.tag "Result" "1-0"; ""; "1. e4 e5 1-0" ]
              (Demo.tag "Event" "Test match"))
    as (v & chunks & Hlabel & _ & Hmatch & Hrow & Hlen & Hall & _ & Hdate).
  - by vm_compute.
  - by vm_compute.
  - by vm_compute.
  - by vm_compute.
  - by vm_compute.
  - by vm_compute.
  - by vm_compute.
  - by vm_compute.
  - by vm_compute.
  - by vm_compute.
  - cbn [date pgn_filename] in Hmatch, Hrow.
    apply (canonical_label_reached _ _ _ _ first_reached_2021) in Hlabel as ->.
    assert (Hsix : length chunks = 6%nat) by (rewrite Hlen; by vm_compute).
    exists chunks. split.
    { rewrite Hmatch. cbn [processed_dir].
      change (month_file (date_part (Naive (datetime_ymd 2021 3 15))))
        with (month_file (datetime_ymd 2021 3 15)).
      assert (month_file (datetime_ymd 2021 3 15) = "2021/03/lc0_matches_2021_03.pgn")
        as -> by (by vm_compute).
      by rewrite lookup_insert_eq. }
    split; [exact Hsix|]. split.
    { apply Hdate. rewrite <-date_in_first_20_spec. by vm_compute. }
    split; [|split; [|split]].
    + destruct (lookup_lt_is_Some_2 chunks 1) as [chunk Hchunk]; [lia|].
      rewrite Hchunk. f_equal.
      apply (Hall 1%nat (Demo.tag "White" "lc0.net.1") chunk);
        [by vm_compute|done|by vm_compute].
    + destruct (lookup_lt_is_Some_2 chunks 2) as [chunk Hchunk]; [lia|].
      rewrite Hchunk. f_equal.
      apply (Hall 2%nat (Demo.tag "Black" "lc0.net.2") chunk);
        [by vm_compute|done|by vm_compute].
    + destruct (lookup_lt_is_Some_2 chunks 5) as [chunk Hchunk]; [lia|].
      rewrite Hchunk. f_equal.
      apply (Hall 5%nat "1. e4 e5 1-0" chunk); [by vm_compute|done].
    + by rewrite Hrow.
Defined.

(** C4 as stated fails on the code.  Entry 42 has status success and is
    not processed; its archive holds one game with an Event line, no Date
    tag, and an Annotator tag whose value contains "[Date".  The rewritten
    game is appended to the file of March 2021 with no Date line, and the
    entry is marked processed. *)
Lemma process_match_without_date :
  let d := "2021-03-15 18:22:04" in
  let content := Demo.archive_of Demo.annotated_game in
  let w := Demo.fetched 42 d content in
  let w' := @process_match Demo.runtime 42 d "match_42.pgn.tar.gz" w in
  let out := [ Demo.tag "Event" "Test match";
               Demo.tag "White" "Lc0 v0.27.0"; Demo.tag "Black" "Lc0 v0.27.0";
               Demo.tag "Annotator" "[Date unknown]";
               Demo.tag "Result" "1-0"; ""; "1. e4 e5 1-0" ] in
  (is_ready <$> matches (db w) !! 42) = Some true
  ∧ @pgn_units Demo.runtime "match_42.pgn.tar.gz" content = [Demo.annotated_game]
  ∧ existsb date_tag (Py.split_on Py.newline Demo.annotated_game) = false
  ∧ processed_dir w' !! "2021/03/lc0_matches_2021_03.pgn"
    = Some (Demo.lines out +:+ games_separator)
  ∧ size (processed_dir w') = 1%nat
  ∧ existsb date_tag out = false
  ∧ (processed <$> matches (db w') !! 42) = Some true.
Proof. cbn zeta. repeat split; by vm_compute. Qed.

(** C2 on the code: entry 7 has status success and a file on disk that is
    no archive.  Extraction yields no unit, nothing is appended, and
    [process_all] marks the entry processed, so no later run selects it
    again. *)
Theorem corrupt_archive_is_marked_processed :
  let w0 := Demo.fetched 7 "2021-03-15" Demo.html in
  let w1 := @process_all Demo.runtime w0 in
  matches (db w0) !! 7
    = Some (mk_row "2021-03-15" "match_7.pgn.tar.gz" None "success" 1 false)
  ∧ download_dir w0 !! "match_7.pgn.tar.gz" = Some Demo.html
  ∧ @targz_getmembers Demo.runtime Demo.html = Py.Raise Py.ReadError
  ∧ @_extract_from_archive Demo.runtime Demo.html = []
  ∧ matches (db w1) !! 7
    = Some (mk_row "2021-03-15" "match_7.pgn.tar.gz" None "success" 1 true)
  ∧ processed_dir w1 = ∅
  ∧ ready_rows (db w1) = [].
Proof. cbn zeta. repeat split; by vm_compute. Qed.

(** ** Whole runs keep processed entries downloaded

    [download_all] and [process_all] change the store only through the
    guarded steps of [reachable]: the invariant of C7 also holds across
    the runs of the program. *)

Section run_properties.
Context `{Runtime}.

Lemma try_urls_db (net : session) (id : Z) (f : string) (urls : list string) (w : world) :
  ∃ status message,
    db (try_urls net id f urls w).2 = update_download_status id status message (db w).
Proof.
  revert w. induction urls as [|url urls IH]; intros w; cbn [try_urls].
  { by eexists _, _. }
  destruct (net url) as [status [content|e]| |]; try apply (IH (note_request url w)).
  - destruct (status =? 200).
    + destruct (_validate_pgn_content content f); [by eexists _, _|].
      apply (IH (note_request url w)).
    + destruct (status =? 404); apply (IH (note_request url w)).
  - destruct (status =? 200); [|destruct (status =? 404)]; apply (IH (note_request url w)).
Qed.

Lemma update_keeps_processed (id k : Z) (status message : string)
    (d : MatchDatabase) (r' : match_row) :
  matches (update_download_status id status message d) !! k = Some r' →
  ∃ r, matches d !! k = Some r ∧ processed r' = processed r.
Proof.
  unfold update_download_status. cbn [matches].
  destruct (decide (id = k)) as [->|Hne].
  - rewrite lookup_alter_eq. destruct (matches d !! k) as [r|]; [|done].
    intros [= <-]. by exists r.
  - rewrite lookup_alter_ne by done. intros Hrow. by exists r'.
Qed.

Lemma mark_keeps_status (id k : Z) (d : MatchDatabase) (r' : match_row) :
  matches (mark_processed id d) !! k = Some r' →
  ∃ r, matches d !! k = Some r ∧ download_status r' = download_status r.
Proof.
  unfold mark_processed. cbn [matches].
  destruct (decide (id = k)) as [->|Hne].
  - rewrite lookup_alter_eq. destruct (matches d !! k) as [r|]; [|done].
    intros [= <-]. by exists r.
  - rewrite lookup_alter_ne by done. intros Hrow. by exists r'.
Qed.

Lemma download_all_keeps_invariant (net : session) (limit : option Z) (w : world) :
  processed_implies_success (db w) →
  processed_implies_success (db (download_all net limit w)).
Proof.
  intros Hinv. unfold download_all.
  assert (Hfresh : ∀ m, m ∈ get_pending_downloads limit (db w) →
            ∀ r, matches (db w) !! m.1.1 = Some r → processed r = false).
  { intros m Hm r Hrow.
    apply elem_of_get_pending_downloads in Hm as (r' & Hrow' & Hpend).
    rewrite Hrow in Hrow'. injection Hrow' as <-.
    destruct (processed r) eqn:Hproc; [|done].
    exfalso. eapply pending_not_success; [exact Hpend|]. by eapply Hinv. }
  generalize dependent (get_pending_downloads limit (db w)). intros pending.
  revert w Hinv.
  induction pending as [|m pending IH]; intros w' Hinv Hfresh; cbn [foldl]; [done|].
  destruct m as [[id d] f].
  assert (∃ status message,
            db (download_match net (id, d, f) w').2
            = update_download_status id status message (db w'))
    as (status & message & Hdb)
    by (unfold download_match, _extract_run_id; apply try_urls_db).
  apply IH.
  - rewrite Hdb. apply update_download_status_invariant; [|done].
    intros r Hrow. apply (Hfresh (id, d, f)); [left|exact Hrow].
  - intros m' Hm' r'. rewrite Hdb. intros Hrow.
    apply update_keeps_processed in Hrow as (r & Hrow & ->).
    apply (Hfresh m'); [by right|done].
Qed.

Lemma organize_by_month_db (d unit : string) (w : world) :
  db (_organize_by_month d unit w) = db w.
Proof.
  unfold _organize_by_month, _organize_by_month_try.
  destruct (Py.split d) as [|tok rest]; py_step; [done|].
  by destruct (fromisoformat tok).
Qed.

Lemma process_units_db (units : list string) (d : string) (id : Z) (w : world) :
  db (process_units units d id w).2 = db w.
Proof.
  revert w. induction units as [|u units IH]; intros w; cbn [process_units]; [done|].
  destruct (Py.strip u =? "")%string; [apply IH|].
  destruct (_process_pgn_content u d id); [|done].
  by rewrite IH, organize_by_month_db.
Qed.

Lemma process_match_db (id : Z) (d f : string) (w : world) :
  db (process_match id d f w) = db w
  ∨ db (process_match id d f w) = mark_processed id (db w).
Proof.
  unfold process_match. destruct (download_dir w !! f) as [content|]; [|by left].
  match goal with
  | |- context [process_units ?units d id w] =>
      pose proof (process_units_db units d id w) as Hdb;
      destruct (process_units units d id w) as [[[]|e] w']
  end; cbn [snd] in Hdb.
  - right. unfold with_db. cbn [db]. by rewrite Hdb.
  - by left.
Qed.

Lemma process_all_keeps_invariant (w : world) :
  processed_implies_success (db w) →
  processed_implies_success (db (process_all w)).
Proof.
  intros Hinv. unfold process_all.
  assert (Hok : ∀ kv, kv ∈ ready_rows (db w) →
            ∀ r, matches (db w) !! kv.1 = Some r → download_status r = "success").
  { intros [id r'] Hkv r Hrow.
    apply elem_of_ready_rows in Hkv as [Hrow' Hready]. simpl in Hrow.
    rewrite Hrow in Hrow'. injection Hrow' as ->.
    by apply is_ready_spec in Hready as [? _]. }
  generalize dependent (ready_rows (db w)). intros rows.
  revert w Hinv.
  induction rows as [|kv rows IH]; intros w' Hinv Hok; cbn [foldl]; [done|].
  destruct (process_match_db kv.1 (date kv.2) (pgn_filename kv.2) w') as [Hdb|Hdb].
  - apply IH; rewrite Hdb; [done|].
    intros kv' Hkv'. apply Hok. by right.
  - apply IH; rewrite Hdb.
    + apply mark_processed_invariant; [|done]. apply Hok. left.
    + intros kv' Hkv' r' Hrow.
      apply mark_keeps_status in Hrow as (r & Hrow & ->).
      apply (Hok kv'); [by right|done].
Qed.

End run_properties.

(** ** The pending query on three entries *)

Example get_pending_downloads_limit_2 :
  let store :=
    update_download_status 3 "success" "Downloaded"
      (insert_matches [ (1, "2021-03-15", "match_1.pgn.tar.gz");
                        (2, "2022-07-01", "match_2.pgn.tar.gz");
                        (3, "2023-01-09", "match_3.pgn.tar.gz");
                        (4, "2020-11-30", "match_4.pgn.tar.gz") ] empty_db) in
  get_pending_downloads None store
  = [ (2, "2022-07-01", "match_2.pgn.tar.gz");
      (1, "2021-03-15", "match_1.pgn.tar.gz");
      (4, "2020-11-30", "match_4.pgn.tar.gz") ]
  ∧ get_pending_downloads (Some 2) store
    = [ (2, "2022-07-01", "match_2.pgn.tar.gz");
        (1, "2021-03-15", "match_1.pgn.tar.gz") ].
Proof. cbn zeta. split; by vm_compute. Qed.

(** * Further properties of the code *)

(** ** The state store *)

Lemma set_processed_id (r : match_row) : processed r = true → set_processed r = r.
Proof. destruct r as [d f ri st n p]. simpl. by intros ->. Qed.

(** [mark_processed] changes nothing for an id the table does not hold,
    or whose row is processed already. *)
Theorem mark_processed_noop (id : Z) (db : MatchDatabase) :
  (∀ r, matches db !! id = Some r → processed r = true) →
  mark_processed id db = db.
Proof.
  intros Hdone. unfold mark_processed. destruct db as [t log]. simpl in *. f_equal.
  apply map_eq. intros k. destruct (decide (id = k)) as [<-|Hne].
  - rewrite lookup_alter_eq. destruct (t !! id) as [r|] eqn:Hrow; [|done].
    simpl. by rewrite set_processed_id by by apply Hdone.
  - by rewrite lookup_alter_ne.
Qed.

Lemma mark_processed_noop_witness :
  mark_processed 42 store_42 = store_42 ∧ mark_processed 7 store_42 = store_42.
Proof.
  split; apply mark_processed_noop; intros r Hrow; vm_compute in Hrow;
    by simplify_eq.
Defined.

(** A status update for an id the table does not hold leaves the table
    as it is and still appends its row to the log: the UPDATE matches no
    row, and the INSERT into [download_log] runs all the same (the
    connection never switches the foreign keys of SQLite on). *)
Theorem update_download_status_unknown_id (id : Z) (status message : string)
    (db : MatchDatabase) :
  matches db !! id = None →
  matches (update_download_status id status message db) = matches db
  ∧ download_log (update_download_status id status message db)
    = download_log db ++ [mk_log id status message].
Proof.
  intros Hnone. split; [|done]. unfold update_download_status. simpl.
  apply map_eq. intros k. destruct (decide (id = k)) as [<-|Hne].
  - by rewrite lookup_alter_eq, Hnone.
  - by rewrite lookup_alter_ne.
Qed.

Lemma update_download_status_unknown_id_witness :
  matches (update_download_status 9 "failed" "All URL patterns failed" store_42)
  = matches store_42
  ∧ length (download_log (update_download_status 9 "failed" "All URL patterns failed" store_42))
    = 2%nat.
Proof.
  destruct (update_download_status_unknown_id 9 "failed" "All URL patterns failed" store_42)
    as [Hsame Hlog]; [by vm_compute|].
  split; [exact Hsame|]. rewrite Hlog. by vm_compute.
Defined.

Lemma row_later_refl (r : match_row) : row_later r r.
Proof. unfold row_later. split; [done|]. split; [done|]. split; [lia|done]. Qed.

Lemma row_later_trans (r1 r2 r3 : match_row) :
  row_later r1 r2 → row_later r2 r3 → row_later r1 r3.
Proof.
  unfold row_later. intros (Hd1 & Hf1 & Ha1 & Hp1) (Hd2 & Hf2 & Ha2 & Hp2).
  split; [congruence|]. split; [congruence|]. split; [lia|auto].
Qed.

Lemma store_step_row (db db' : MatchDatabase) (id : Z) (r : match_row) :
  store_step db db' → matches db !! id = Some r →
  ∃ r', matches db' !! id = Some r' ∧ row_later r r'.
Proof.
  intros Hstep Hrow. destruct Hstep as [db ms|db id' status message|db id'].
  - exists r. split; [|apply row_later_refl].
    unfold insert_matches. simpl. by apply foldl_insert_keeps.
  - unfold update_download_status. simpl.
    destruct (decide (id' = id)) as [->|Hne].
    + exists (set_status status r). rewrite lookup_alter_eq, Hrow. split; [done|].
      unfold row_later, set_status. simpl. split; [done|]. split; [done|]. split; [lia|done].
    + exists r. rewrite lookup_alter_ne by done. split; [done|apply row_later_refl].
  - unfold mark_processed. simpl.
    destruct (decide (id' = id)) as [->|Hne].
    + exists (set_processed r). rewrite lookup_alter_eq, Hrow. split; [done|].
      unfold row_later, set_processed. simpl. split; [done|]. split; [done|]. split; [lia|done].
    + exists r. rewrite lookup_alter_ne by done. split; [done|apply row_later_refl].
Qed.

Lemma store_step_log (db db' : MatchDatabase) :
  store_step db db' → download_log db `prefix_of` download_log db'.
Proof.
  intros [db0 ms|db0 id status message|db0 id]; simpl; [done| |done].
  by apply prefix_app_r.
Qed.

(** Through any sequence of store operations a row is never deleted, its
    date and file name never change, its attempts never decrease, its
    processed flag is never reset, and the log only grows at its end. *)
Theorem rows_and_log_persist (db db' : MatchDatabase) (id : Z) (r : match_row) :
  rtc store_step db db' →
  matches db !! id = Some r →
  (∃ r', matches db' !! id = Some r' ∧ row_later r r')
  ∧ download_log db `prefix_of` download_log db'.
Proof.
  intros Hsteps. revert r. induction Hsteps as [db|db db1 db2 Hstep _ IH]; intros r Hrow.
  - split; [|done]. exists r. split; [done|apply row_later_refl].
  - destruct (store_step_row _ _ _ _ Hstep Hrow) as (r1 & Hrow1 & Hlater1).
    destruct (IH r1 Hrow1) as [(r2 & Hrow2 & Hlater2) Hlog].
    split.
    + exists r2. split; [done|]. by eapply row_later_trans.
    + etrans; [by apply store_step_log|done].
Qed.

Lemma rows_and_log_persist_witness :
  ∃ r', matches store_42 !! 42 = Some r'
        ∧ row_later (mk_row "2021-03-15" "match_42.pgn.tar.gz" None "pending" 0 false) r'.
Proof.
  refine (proj1 (rows_and_log_persist
                   (insert_matches [(42, "2021-03-15", "match_42.pgn.tar.gz")] empty_db)
                   store_42 42 _ _ _)).
  - eapply rtc_l; [apply step_update|]. eapply rtc_l; [apply step_mark|]. apply rtc_refl.
  - by vm_compute.
Defined.

(** ** The fetcher: every attempt *)

Section fetcher_further.
Context `{Runtime}.

(** Either no candidate is acceptable or there is a first one that is. *)
Lemma first_accepted_or_none (net : session) (f : string) (urls : list string) :
  (∀ url, url ∈ urls → accepted net f url = None)
  ∨ (∃ k url content,
       urls !! k = Some url ∧ accepted net f url = Some content
       ∧ ∀ j u, (j < k)%nat → urls !! j = Some u → accepted net f u = None).
Proof.
  induction urls as [|url urls IH].
  - left. intros url Hin. by apply elem_of_nil in Hin.
  - destruct (accepted net f url) as [content|] eqn:Hacc.
    + right. exists 0%nat, url, content. split; [done|]. split; [done|]. intros; lia.
    + destruct IH as [Hnone|(k & u & content & Hk & Hu & Hbefore)].
      * left. intros u [->|Hin]%elem_of_cons; auto.
      * right. exists (S k), u, content. split; [done|]. split; [done|].
        intros [|j] u' Hj Hu'; simpl in Hu'; [by simplify_eq|].
        apply (Hbefore j); [lia|done].
Qed.

Lemma accepted_validates (net : session) (f url : string) (content : bytes) :
  accepted net f url = Some content → _validate_pgn_content content f = true.
Proof.
  unfold accepted. destruct (net url) as [status [c|e]| |]; try done.
  destruct (status =? 200); [|done]. simpl.
  destruct (_validate_pgn_content c f) eqn:Hv; [|done]. by intros [= <-].
Qed.

(** The two ways [download_match] ends. *)
Lemma download_match_cases (net : session) (id : Z) (d f : string) (w : world) :
  (∃ k url content,
     url_patterns 1 id !! k = Some url
     ∧ accepted net f url = Some content
     ∧ download_match net (id, d, f) w =
       (true,
        mk_world (update_download_status id "success" ("Downloaded from " +:+ url) (db w))
                 (<[f := content]> (download_dir w)) (processed_dir w)
                 (requests w ++ take (S k) (url_patterns 1 id))))
  ∨ ((∀ url, url ∈ url_patterns 1 id → accepted net f url = None)
     ∧ download_match net (id, d, f) w =
       (false,
        mk_world (update_download_status id "failed" "All URL patterns failed" (db w))
                 (download_dir w) (processed_dir w)
                 (requests w ++ url_patterns 1 id))).
Proof.
  unfold download_match, _extract_run_id.
  destruct (first_accepted_or_none net f (url_patterns 1 id))
    as [Hnone|(k & url & content & Hk & Hacc & Hbefore)].
  - right. split; [done|]. by apply try_urls_exhausted.
  - left. exists k, url, content. split; [done|]. split; [done|].
    by apply try_urls_first_accepted.
Qed.

(** One call of [download_match] is one attempt: whatever the server
    answers, the row of the entry gets one more attempt and the status
    "success" or "failed" according to the result, no other row changes,
    the log gains exactly one row, for this entry and with that status,
    and the normalized files are left alone. *)
Theorem download_match_one_attempt (net : session) (id : Z) (d f : string) (w : world) :
  let ok := (download_match net (id, d, f) w).1 in
  let w' := (download_match net (id, d, f) w).2 in
  let status := if ok then "success" else "failed" in
  matches (db w') = alter (set_status status) id (matches (db w))
  ∧ (∃ message, download_log (db w') = download_log (db w) ++ [mk_log id status message])
  ∧ processed_dir w' = processed_dir w.
Proof.
  cbn zeta.
  destruct (download_match_cases net id d f w)
    as [(k & url & content & _ & _ & ->)|[_ ->]]; cbn [fst snd db matches download_log
      update_download_status processed_dir].
  - split; [done|]. split; [by eexists|done].
  - split; [done|]. split; [by eexists|done].
Qed.

(** [download_match] returns true exactly when one of the four candidates
    answers 200 with a body that reads and validates.  When it returns
    false it has requested all four candidates, in order, and has written
    no file; when it returns true the only file written is the entry's
    own, and its content passes validation. *)
Theorem download_match_result (net : session) (id : Z) (d f : string) (w : world) :
  let ok := (download_match net (id, d, f) w).1 in
  let w' := (download_match net (id, d, f) w).2 in
  (ok = true ↔ ∃ url, url ∈ url_patterns 1 id ∧ is_Some (accepted net f url))
  ∧ (ok = false →
       download_dir w' = download_dir w
       ∧ requests w' = requests w ++ url_patterns 1 id)
  ∧ (ok = true →
       ∃ content, _validate_pgn_content content f = true
                  ∧ download_dir w' = <[f := content]> (download_dir w)).
Proof.
  cbn zeta.
  destruct (download_match_cases net id d f w)
    as [(k & url & content & Hk & Hacc & ->)|[Hnone ->]]; cbn [fst snd download_dir requests].
  - split; [|split; [done|]].
    + split; [|done]. intros _. exists url. split; [by eapply list_elem_of_lookup_2|].
      by rewrite Hacc.
    + intros _. exists content. split; [by eapply accepted_validates|done].
  - split; [|split; [done|done]].
    split; [done|]. intros (url & Hin & [c Hc]). by rewrite (Hnone url Hin) in Hc.
Qed.

End fetcher_further.

(** ** The application: what every run keeps *)

Section program_properties.
Context `{Runtime}.

Lemma insert_matches_new_row (ms : list match_data) (t : gmap Z match_row)
    (id : Z) (r : match_row) :
  foldl insert_or_ignore t ms !! id = Some r →
  t !! id = Some r ∨ ∃ d f, r = mk_row d f None "pending" 0 false.
Proof.
  revert t. induction ms as [|[[id' d] f] ms IH]; intros t; simpl; [by left|].
  intros Hrow. destruct (IH _ Hrow) as [Hprev|Hnew]; [|by right].
  destruct (t !! id') eqn:Hid'; [by left|].
  destruct (decide (id' = id)) as [->|Hne].
  - rewrite lookup_insert_eq in Hprev. injection Hprev as <-. right. by exists d, f.
  - rewrite lookup_insert_ne in Hprev by done. by left.
Qed.

Lemma fresh_healthy : healthy fresh.
Proof.
  unfold healthy, fresh, processed_implies_success, downloads_valid, success_on_disk.
  cbn [db download_dir matches empty_db].
  repeat split; intros *; by rewrite lookup_empty.
Qed.

Lemma run_scrape_healthy (ms : list match_data) (w : world) :
  healthy w → healthy (run_scrape ms w).
Proof.
  intros (Honce & Hinv & Hvalid & Hdisk). unfold run_scrape, with_db.
  split; [|split; [|split]]; cbn [db download_dir insert_matches matches].
  - intros id r Hrow. apply insert_matches_new_row in Hrow as [Hold|(d & f & ->)].
    + by eapply Honce.
    + by left.
  - by apply (insert_matches_invariant ms (db w)).
  - exact Hvalid.
  - intros id r Hrow Hsuccess. cbn [db insert_matches matches] in Hrow.
    apply insert_matches_new_row in Hrow as [Hold|(d & f & ->)]; [|done].
    by eapply Hdisk.
Qed.

Lemma tried_pending (r : match_row) :
  tried_at_most_once r → is_pending r = true →
  download_status r = "pending" ∧ download_attempts r = 0.
Proof.
  intros [Hp|[[Hs|Hs] _]] Hpend; [done|..];
    apply pending_not_success in Hpend as Hns; [done|].
  apply is_pending_spec in Hpend as [[Hst|Hst] _]; congruence.
Qed.

Lemma elem_of_get_pending_row (db : MatchDatabase) (limit : option Z) (m : match_data) :
  m ∈ get_pending_downloads limit db →
  ∃ r, m = (m.1.1, date r, pgn_filename r)
       ∧ matches db !! m.1.1 = Some r ∧ is_pending r = true.
Proof.
  unfold get_pending_downloads. rewrite list_elem_of_fmap.
  intros ([id r] & -> & Hin). exists r. split; [done|]. simpl.
  apply elem_of_pending_rows.
  destruct limit as [n|]; [|done].
  destruct (n =? 0); [done|]. unfold sql_limit in Hin.
  destruct (n <? 0); [done|].
  eapply elem_of_sublist; [exact Hin|]. apply sublist_take.
Qed.

Lemma NoDup_get_pending_ids (db : MatchDatabase) (limit : option Z) :
  NoDup ((get_pending_downloads limit db).*1.*1).
Proof.
  unfold get_pending_downloads. rewrite <-!list_fmap_compose.
  change (fst ∘ fst ∘ to_match_data) with (@fst Z match_row).
  pose proof (NoDup_pending_ids db) as Hnodup.
  destruct limit as [n|]; [|done].
  destruct (n =? 0); [done|]. unfold sql_limit.
  destruct (n <? 0); [done|].
  eapply sublist_NoDup; [exact Hnodup|]. apply fmap_sublist, sublist_take.
Qed.

(** One attempt on a pending entry keeps the four facts. *)
Lemma download_match_healthy (net : session) (id : Z) (d f : string) (w : world)
    (r : match_row) :
  healthy w →
  matches (db w) !! id = Some r → pgn_filename r = f → download_status r = "pending" →
  healthy (download_match net (id, d, f) w).2.
Proof.
  intros (Honce & Hinv & Hvalid & Hdisk) Hrow Hname Hpending.
  assert (Hzero : download_attempts r = 0).
  { destruct (Honce id r Hrow) as [[_ ?]|[[Hs|Hs] _]]; [done|congruence..]. }
  assert (Hfresh : ∀ r0, matches (db w) !! id = Some r0 → processed r0 = false).
  { intros r0 Hr0. rewrite Hrow in Hr0. injection Hr0 as <-.
    destruct (processed r) eqn:Hp; [|done].
    rewrite (Hinv id r Hrow Hp) in Hpending. discriminate. }
  assert (Hrows : ∀ status message k r',
    (status = "success" ∨ status = "failed") →
    matches (update_download_status id status message (db w)) !! k = Some r' →
    (k = id ∧ r' = set_status status r) ∨ (k ≠ id ∧ matches (db w) !! k = Some r')).
  { intros status message k r' _. unfold update_download_status. cbn [matches].
    destruct (decide (id = k)) as [<-|Hne].
    - rewrite lookup_alter_eq, Hrow. intros [= <-]. by left.
    - rewrite lookup_alter_ne by done. intros ?. right. by split. }
  destruct (download_match_cases net id d f w)
    as [(i & url & content & _ & Hacc & ->)|[_ ->]]; cbn [snd];
    (split; [|split; [|split]]); unfold downloads_valid, success_on_disk;
    cbn [db download_dir].
  - intros k r' Hr'. apply Hrows in Hr' as [[-> ->]|[_ Hr']]; [|by eapply Honce|by left].
    right. unfold set_status. cbn [download_status download_attempts].
    split; [by left|lia].
  - by apply update_download_status_invariant.
  - intros f' c. destruct (decide (f = f')) as [<-|Hne].
    + rewrite lookup_insert_eq. intros [= <-]. by eapply accepted_validates.
    + rewrite lookup_insert_ne by done. apply Hvalid.
  - intros k r' Hr' Hs. apply Hrows in Hr' as [[-> ->]|[_ Hr']]; [| |by left].
    + unfold set_status. cbn [pgn_filename]. rewrite Hname, lookup_insert_eq. by eexists.
    + destruct (decide (f = pgn_filename r')) as [<-|Hne].
      * rewrite lookup_insert_eq. by eexists.
      * rewrite lookup_insert_ne by done. by eapply Hdisk.
  - intros k r' Hr'. apply Hrows in Hr' as [[-> ->]|[_ Hr']]; [|by eapply Honce|by right].
    right. unfold set_status. cbn [download_status download_attempts].
    split; [by right|lia].
  - by apply update_download_status_invariant.
  - exact Hvalid.
  - intros k r' Hr' Hs. apply Hrows in Hr' as [[-> ->]|[_ Hr']]; [| |by right].
    + unfold set_status in Hs. cbn [download_status] in Hs. discriminate.
    + by eapply Hdisk.
Qed.

Lemma download_match_other_rows (net : session) (id : Z) (d f : string) (w : world) (k : Z) :
  k ≠ id → matches (db (download_match net (id, d, f) w).2) !! k = matches (db w) !! k.
Proof.
  intros Hne.
  destruct (download_match_cases net id d f w)
    as [(i & url & content & _ & _ & ->)|[_ ->]];
    cbn [snd db matches update_download_status]; by rewrite lookup_alter_ne.
Qed.

Lemma run_download_healthy (net : session) (limit : option Z) (w : world) :
  healthy w → healthy (run_download net limit w).
Proof.
  intros Hw. unfold run_download, download_all.
  pose proof (NoDup_get_pending_ids (db w) limit) as Hnodup.
  assert (Hrows : ∀ m, m ∈ get_pending_downloads limit (db w) →
    ∃ r, m = (m.1.1, date r, pgn_filename r)
         ∧ matches (db w) !! m.1.1 = Some r ∧ download_status r = "pending").
  { intros m Hm. apply elem_of_get_pending_row in Hm as (r & Hm & Hrow & Hpend).
    exists r. split; [done|]. split; [done|].
    destruct Hw as (Honce & _). by apply (tried_pending r (Honce _ _ Hrow)). }
  generalize dependent (get_pending_downloads limit (db w)). intros pending.
  revert w Hw. induction pending as [|m pending IH]; intros w Hw Hnodup Hrows;
    cbn [foldl]; [done|].
  rewrite !fmap_cons in Hnodup. apply NoDup_cons in Hnodup as [Hfirst Hnodup].
  destruct (Hrows m) as (r & Hm & Hrow & Hpending); [left|].
  rewrite Hm. apply IH; [|done|].
  - by eapply download_match_healthy.
  - intros m' Hm'. destruct (Hrows m') as (r' & Hm'eq & Hrow' & Hpending'); [by right|].
    exists r'. split; [done|]. split; [|done].
    rewrite download_match_other_rows; [done|]. simpl. intros Heq.
    apply Hfirst. rewrite <-Heq. apply list_elem_of_fmap. exists m'.1. split; [done|].
    apply list_elem_of_fmap. by exists m'.
Qed.

End program_properties.

(** ** The normalizer: what a run touches *)

Lemma string_app_nil_r (s : string) : s +:+ "" = s.
Proof.
  induction s as [|c s IH]; [done|].
  change (String c (s +:+ "") = String c s). by rewrite IH.
Qed.

Lemma string_app_assoc (s t u : string) : (s +:+ t) +:+ u = s +:+ (t +:+ u).
Proof.
  induction s as [|c s IH]; [done|].
  change (String c ((s +:+ t) +:+ u) = String c (s +:+ (t +:+ u))). by rewrite IH.
Qed.

Lemma appended_only_refl (files : gmap string string) : appended_only files files.
Proof. intros path content Hfile. exists "". by rewrite string_app_nil_r. Qed.

Lemma appended_only_trans (a b c : gmap string string) :
  appended_only a b → appended_only b c → appended_only a c.
Proof.
  intros Hab Hbc path content Hfile.
  destruct (Hab _ _ Hfile) as [s1 Hb]. destruct (Hbc _ _ Hb) as [s2 Hc].
  exists (s1 +:+ s2). by rewrite <-string_app_assoc.
Qed.

Section normalizer_further.
Context `{Runtime}.

Lemma organize_by_month_frame (d unit : string) (w : world) :
  download_dir (_organize_by_month d unit w) = download_dir w
  ∧ requests (_organize_by_month d unit w) = requests w
  ∧ appended_only (processed_dir w) (processed_dir (_organize_by_month d unit w)).
Proof.
  unfold _organize_by_month, _organize_by_month_try.
  destruct (Py.split d) as [|tok rest]; py_step;
    [by split; [|split; [|apply appended_only_refl]]|].
  destruct (fromisoformat tok) as [dt|e]; py_step;
    [|by split; [|split; [|apply appended_only_refl]]].
  unfold append_text. cbn [download_dir requests processed_dir].
  split; [done|]. split; [done|]. intros path content Hfile.
  destruct (decide (month_file (date_part dt) = path)) as [<-|Hne].
  - rewrite lookup_insert_eq, Hfile. by eexists.
  - rewrite lookup_insert_ne by done. exists "". by rewrite string_app_nil_r.
Qed.

Lemma process_units_frame (units : list string) (d : string) (id : Z) (w : world) :
  download_dir (process_units units d id w).2 = download_dir w
  ∧ requests (process_units units d id w).2 = requests w
  ∧ appended_only (processed_dir w) (processed_dir (process_units units d id w).2).
Proof.
  revert w. induction units as [|u units IH]; intros w; cbn [process_units].
  { by split; [|split; [|apply appended_only_refl]]. }
  destruct (Py.strip u =? "")%string; [apply IH|].
  destruct (_process_pgn_content u d id) as [unit|e];
    [|by split; [|split; [|apply appended_only_refl]]].
  destruct (IH (_organize_by_month d unit w)) as (Hd & Hr & Ha).
  destruct (organize_by_month_frame d unit w) as (Hd' & Hr' & Ha').
  split; [congruence|]. split; [congruence|]. by eapply appended_only_trans.
Qed.

Lemma process_match_frame (id : Z) (d f : string) (w : world) :
  download_dir (process_match id d f w) = download_dir w
  ∧ requests (process_match id d f w) = requests w
  ∧ appended_only (processed_dir w) (processed_dir (process_match id d f w)).
Proof.
  unfold process_match. destruct (download_dir w !! f) as [content|];
    [|by split; [|split; [|apply appended_only_refl]]].
  match goal with
  | |- context [process_units ?units d id w] =>
      pose proof (process_units_frame units d id w) as Hframe;
      destruct (process_units units d id w) as [[[]|e] w']
  end; exact Hframe.
Qed.

(** The rows after [mark_processed]: the old ones, one of them marked. *)
Lemma mark_processed_row (id k : Z) (d : MatchDatabase) (r' : match_row) :
  matches (mark_processed id d) !! k = Some r' →
  ∃ r, matches d !! k = Some r ∧ (r' = r ∨ r' = set_processed r).
Proof.
  unfold mark_processed. cbn [matches].
  destruct (decide (id = k)) as [->|Hne].
  - rewrite lookup_alter_eq. destruct (matches d !! k) as [r|]; [|done].
    intros [= <-]. exists r. auto.
  - rewrite lookup_alter_ne by done. intros Hrow. exists r'. auto.
Qed.

Lemma process_all_frame (w : world) :
  download_dir (process_all w) = download_dir w
  ∧ requests (process_all w) = requests w
  ∧ download_log (db (process_all w)) = download_log (db w)
  ∧ appended_only (processed_dir w) (processed_dir (process_all w))
  ∧ (∀ id r', matches (db (process_all w)) !! id = Some r' →
       ∃ r, matches (db w) !! id = Some r ∧ (r' = r ∨ r' = set_processed r)).
Proof.
  unfold process_all. generalize (ready_rows (db w)). intros rows. revert w.
  induction rows as [|kv rows IH]; intros w; cbn [foldl].
  { split; [done|]. split; [done|]. split; [done|].
    split; [apply appended_only_refl|]. intros id r' Hrow. exists r'. auto. }
  set (w1 := process_match kv.1 (date kv.2) (pgn_filename kv.2) w).
  destruct (IH w1) as (Hd & Hr & Hl & Ha & Hrows).
  destruct (process_match_frame kv.1 (date kv.2) (pgn_filename kv.2) w) as (Hd1 & Hr1 & Ha1).
  fold w1 in Hd1, Hr1, Ha1.
  assert (Hdb : db w1 = db w ∨ db w1 = mark_processed kv.1 (db w))
    by apply process_match_db.
  split; [congruence|]. split; [congruence|]. split.
  { rewrite Hl. by destruct Hdb as [->| ->]. }
  split; [by eapply appended_only_trans|].
  intros id r' Hrow. destruct (Hrows id r' Hrow) as (r1 & Hrow1 & Hr1').
  destruct Hdb as [Hdb|Hdb]; rewrite Hdb in Hrow1.
  - by exists r1.
  - apply mark_processed_row in Hrow1 as (r & Hrow0 & [->| ->]); exists r;
      (split; [done|]); destruct Hr1' as [->| ->]; auto.
Qed.

(** A run of the normalizer leaves the downloaded files, the request
    trace and the log as they are; every aggregate file that was there is
    still there, with its old content at the start; and every row is the
    old row, at most marked processed: its date, file name, status and
    attempts stay. *)
Theorem process_all_touches (w : world) :
  download_dir (process_all w) = download_dir w
  ∧ requests (process_all w) = requests w
  ∧ download_log (db (process_all w)) = download_log (db w)
  ∧ appended_only (processed_dir w) (processed_dir (process_all w))
  ∧ (∀ id r', matches (db (process_all w)) !! id = Some r' →
       ∃ r, matches (db w) !! id = Some r ∧ (r' = r ∨ r' = set_processed r)).
Proof. exact (process_all_frame w). Qed.

Lemma run_process_healthy (w : world) : healthy w → healthy (run_process w).
Proof.
  intros (Honce & Hinv & Hvalid & Hdisk). unfold run_process.
  destruct (process_all_frame w) as (Hd & _ & _ & _ & Hrows).
  split; [|split; [|split]].
  - intros id r' Hrow. destruct (Hrows id r' Hrow) as (r & Hr & [->| ->]);
      by apply (Honce id r).
  - by apply process_all_keeps_invariant.
  - unfold downloads_valid. rewrite Hd. exact Hvalid.
  - unfold success_on_disk. rewrite Hd. intros id r' Hrow Hs.
    destruct (Hrows id r' Hrow) as (r & Hr & [->| ->]); by apply (Hdisk id r).
Qed.

Lemma program_state_healthy (w : world) : program_state w → healthy w.
Proof.
  induction 1 as [|w ms _ IH|w net limit _ IH|w _ IH].
  - apply fresh_healthy.
  - by apply run_scrape_healthy.
  - by apply run_download_healthy.
  - by apply run_process_healthy.
Qed.

End normalizer_further.

(** ** The application: attempts, files and statistics *)

Lemma filter_length_partition {A : Type} (p1 p2 p3 : A → bool) (l : list A) :
  (∀ x, x ∈ l →
     (p1 x = true ∧ p2 x = false ∧ p3 x = false)
     ∨ (p1 x = false ∧ p2 x = true ∧ p3 x = false)
     ∨ (p1 x = false ∧ p2 x = false ∧ p3 x = true)) →
  length l
  = (length (filter (fun x => p1 x = true) l)
     + length (filter (fun x => p2 x = true) l)
     + length (filter (fun x => p3 x = true) l))%nat.
Proof.
  induction l as [|x l IH]; intros Hone; [done|].
  rewrite !filter_cons.
  specialize (IH (fun y Hy => Hone y (list_elem_of_further _ _ _ Hy))).
  destruct (Hone x) as [(-> & -> & ->)|[(-> & -> & ->)|(-> & -> & ->)]]; [left|..];
    repeat case_decide; try done; cbn [length]; lia.
Qed.

Lemma filter_length_le {A : Type} (p q : A → bool) (l : list A) :
  (∀ x, x ∈ l → p x = true → q x = true) →
  (length (filter (fun x => p x = true) l) ≤ length (filter (fun x => q x = true) l))%nat.
Proof.
  induction l as [|x l IH]; intros Himp; [done|].
  rewrite !filter_cons.
  specialize (IH (fun y Hy => Himp y (list_elem_of_further _ _ _ Hy))).
  pose proof (Himp x (list_elem_of_here _ _)) as Hx.
  destruct (p x), (q x); repeat case_decide; try done; cbn [length]; lia.
Qed.

Lemma filter_length_all {A : Type} (l : list A) :
  length (filter (fun _ : A => true = true) l) = length l.
Proof.
  induction l as [|x l IH]; [done|]. rewrite filter_cons_True by done.
  cbn [length]. f_equal. exact IH.
Qed.

Section program_theorems.
Context `{Runtime}.

(** In every state the application reaches, each entry was tried at most
    once: it is pending with no attempt, or has status success or failed
    with exactly one attempt.  No row ever holds the status "retry", and
    no attempts counter comes near [MAX_RETRIES]. *)
Theorem program_tries_once (w : world) (id : Z) (r : match_row) :
  program_state w →
  matches (db w) !! id = Some r →
  tried_at_most_once r
  ∧ download_status r ≠ "retry"
  ∧ download_attempts r < Config.MAX_RETRIES.
Proof.
  intros Hw Hrow. destruct (program_state_healthy w Hw) as (Honce & _).
  pose proof (Honce id r Hrow) as Hr. split; [done|].
  unfold Config.MAX_RETRIES.
  destruct Hr as [[Hs Ha]|[[Hs|Hs] Ha]]; rewrite Hs, Ha; by split; [|lia].
Qed.

(** In every state the application reaches, each file in the download
    directory passes validation under its name, and each entry with
    status success has its file there. *)
Theorem program_downloads_on_disk (w : world) :
  program_state w → downloads_valid w ∧ success_on_disk w.
Proof.
  intros Hw. by destruct (program_state_healthy w Hw) as (_ & _ & Hvalid & Hdisk).
Qed.

(** In every state the application reaches, the figures of [get_stats]
    add up: every match is counted as downloaded, pending or failed, and
    as one of them only; and no more matches are processed than were
    downloaded. *)
Theorem program_stats_add_up (w : world) :
  program_state w →
  let s := get_stats (db w) in
  Stats.total_matches s = (Stats.downloaded s + Stats.pending s + Stats.failed s)%nat
  ∧ (Stats.processed s ≤ Stats.downloaded s)%nat.
Proof.
  intros Hw. destruct (program_state_healthy w Hw) as (Honce & Hinv & _).
  cbn zeta. unfold get_stats. cbn [Stats.total_matches Stats.downloaded Stats.pending
    Stats.failed Stats.processed]. unfold count_where. split.
  - rewrite filter_length_all.
    apply (filter_length_partition
             (fun kv => has_status "success" kv.2)
             (fun kv => has_status "pending" kv.2)
             (fun kv => has_status "failed" kv.2)).
    intros [id r] Hin. apply elem_of_map_to_list in Hin. unfold has_status. simpl.
    destruct (Honce id r Hin) as [[Hs _]|[[Hs|Hs] _]]; rewrite Hs; auto.
  - apply (filter_length_le (fun kv => processed kv.2) (fun kv => has_status "success" kv.2)).
    intros [id r] Hin Hp. apply elem_of_map_to_list in Hin. unfold has_status. simpl in *.
    rewrite (Hinv id r Hin Hp). done.
Qed.

End program_theorems.

(** The state after one full run on one match whose archive the server
    holds at the third candidate. *)
Definition after_run_all : world :=
  @run_all Demo.runtime [(42, "2021-03-15", "match_42.pgn.tar.gz")]
           (Demo.third_candidate 42) fresh.

Lemma after_run_all_reached : @program_state Demo.runtime after_run_all.
Proof. apply ps_process, ps_download, ps_scrape, ps_fresh. Qed.

Lemma program_tries_once_witness :
  matches (db after_run_all) !! 42
  = Some (mk_row "2021-03-15" "match_42.pgn.tar.gz" None "success" 1 true)
  ∧ tried_at_most_once (mk_row "2021-03-15" "match_42.pgn.tar.gz" None "success" 1 true).
Proof.
  assert (Hrow : matches (db after_run_all) !! 42
    = Some (mk_row "2021-03-15" "match_42.pgn.tar.gz" None "success" 1 true))
    by (by vm_compute).
  split; [exact Hrow|].
  exact (proj1 (@program_tries_once Demo.runtime after_run_all 42 _
                  after_run_all_reached Hrow)).
Defined.

Lemma program_downloads_on_disk_witness :
  @downloads_valid Demo.runtime after_run_all ∧ success_on_disk after_run_all.
Proof. exact (@program_downloads_on_disk Demo.runtime after_run_all after_run_all_reached). Defined.

Lemma program_stats_add_up_witness :
  get_stats (db after_run_all) = Stats.mk 1 1 0 0 1
  ∧ (Stats.processed (get_stats (db after_run_all))
     ≤ Stats.downloaded (get_stats (db after_run_all)))%nat.
Proof.
  split; [by vm_compute|].
  exact (proj2 (@program_stats_add_up Demo.runtime after_run_all after_run_all_reached)).
Defined.

(** ** The fetcher: one run empties the queue *)

Lemma no_pending_rows (db : MatchDatabase) (limit : option Z) :
  (∀ id r, matches db !! id = Some r → is_pending r = false) →
  get_pending_downloads limit db = [].
Proof.
  intros Hnone.
  assert (Hrows : pending_rows db = []).
  { unfold pending_rows.
    destruct (filter _ (map_to_list (matches db))) as [|[id r] rest] eqn:Hfilter; [done|].
    assert (Hin : (id, r) ∈ filter (fun kv : Z * match_row => is_pending kv.2 = true)
                               (map_to_list (matches db)))
      by (rewrite Hfilter; left).
    apply list_elem_of_filter in Hin as [Hp Hin]. apply elem_of_map_to_list in Hin.
    simpl in Hp. by rewrite (Hnone id r Hin) in Hp. }
  unfold get_pending_downloads. rewrite Hrows.
  destruct limit as [n|]; [|done]. destruct (n =? 0); [done|].
  unfold sql_limit. destruct (n <? 0); [done|]. by rewrite take_nil.
Qed.

Section drain.
Context `{Runtime}.

Lemma download_fold_drains (net : session) (pending : list match_data) (w : world) :
  (∀ id r, matches (db w) !! id = Some r → is_pending r = true → id ∈ pending.*1.*1) →
  ∀ id r,
    matches (db (foldl (fun w m => (download_match net m w).2) w pending)) !! id = Some r →
    is_pending r = false.
Proof.
  revert w. induction pending as [|[[id0 d] f] pending IH]; intros w Hcover id r; cbn [foldl].
  - intros Hrow. destruct (is_pending r) eqn:Hp; [|done].
    specialize (Hcover id r Hrow Hp). by apply elem_of_nil in Hcover.
  - apply IH. clear id r. intros id r Hrow Hp.
    assert (Hcases : ∃ status, (status = "success" ∨ status = "failed")
              ∧ matches (db (download_match net (id0, d, f) w).2)
                = alter (set_status status) id0 (matches (db w))).
    { destruct (download_match_cases net id0 d f w)
        as [(i & url & content & _ & _ & ->)|[_ ->]]; cbn [snd db]; eauto. }
    destruct Hcases as (status & Hstatus & Hdb). rewrite Hdb in Hrow.
    destruct (decide (id0 = id)) as [->|Hne].
    + rewrite lookup_alter_eq in Hrow.
      destruct (matches (db w) !! id) as [r0|]; [|done]. injection Hrow as <-.
      apply pending_not_success in Hp as Hns. apply is_pending_spec in Hp as [Hst _].
      unfold set_status in Hst, Hns. cbn [download_status] in Hst, Hns.
      destruct Hstatus as [->| ->]; [done|]. by destruct Hst.
    + rewrite lookup_alter_ne in Hrow by done.
      specialize (Hcover id r Hrow Hp). rewrite !fmap_cons in Hcover. simpl in Hcover.
      by apply elem_of_cons in Hcover as [->|?].
Qed.

(** After [download_all] without a limit no entry is left for the
    fetcher: every entry it tried ended as success or failed, so the
    pending query returns nothing and a second run, against any server,
    changes nothing. *)
Theorem download_all_drains (net net' : session) (w : world) :
  (∀ limit, get_pending_downloads limit (db (download_all net None w)) = [])
  ∧ download_all net' None (download_all net None w) = download_all net None w.
Proof.
  assert (Hempty : ∀ limit, get_pending_downloads limit (db (download_all net None w)) = []).
  { intros limit. apply no_pending_rows. unfold download_all.
    apply download_fold_drains. intros id r Hrow Hp.
    unfold get_pending_downloads. rewrite <-!list_fmap_compose.
    apply list_elem_of_fmap. exists (id, r). split; [done|].
    by apply elem_of_pending_rows. }
  split; [exact Hempty|].
  unfold download_all at 1. by rewrite Hempty.
Qed.

End drain.

(** ** The normalizer: when an entry is marked processed *)

Section process_match_outcomes.
Context `{Runtime}.

Lemma process_pgn_content_blank_date (text d : string) (id : Z) :
  Py.split d = [] → _process_pgn_content text d id = Py.Raise Py.IndexError.
Proof. intros Hd. unfold _process_pgn_content. by rewrite Hd. Qed.

Lemma process_pgn_content_returns (text d : string) (id : Z) :
  Py.split d ≠ [] → ∃ unit, _process_pgn_content text d id = Py.Ok unit.
Proof.
  intros Hd. unfold _process_pgn_content.
  destruct (Py.split d) as [|tok rest]; [done|]. py_step. by eexists.
Qed.

Lemma process_units_blank_date (units : list string) (d : string) (id : Z) (w : world) :
  Py.split d = [] →
  Exists (fun u => (Py.strip u =? "")%string = false) units →
  process_units units d id w = (Py.Raise Py.IndexError, w).
Proof.
  intros Hd. induction 1 as [u units Hu|u units _ IH]; cbn [process_units].
  - by rewrite Hu, process_pgn_content_blank_date.
  - destruct (Py.strip u =? "")%string; [done|].
    by rewrite process_pgn_content_blank_date.
Qed.

Lemma process_units_all_blank (units : list string) (d : string) (id : Z) (w : world) :
  Forall (fun u => (Py.strip u =? "")%string = true) units →
  process_units units d id w = (Py.Ok tt, w).
Proof. induction 1 as [|u units Hu _ IH]; cbn [process_units]; [done|]. by rewrite Hu. Qed.

Lemma process_units_returns (units : list string) (d : string) (id : Z) (w : world) :
  Py.split d ≠ [] → (process_units units d id w).1 = Py.Ok tt.
Proof.
  intros Hd. revert w. induction units as [|u units IH]; intros w; cbn [process_units]; [done|].
  destruct (Py.strip u =? "")%string; [apply IH|].
  destruct (process_pgn_content_returns u d id Hd) as [unit ->]. apply IH.
Qed.

Lemma organize_by_month_rejected (d unit tok : string) (rest : list string)
    (e : Py.exn) (w : world) :
  Py.split d = tok :: rest → fromisoformat tok = Py.Raise e →
  _organize_by_month d unit w = w.
Proof.
  intros Hd Hparse. unfold _organize_by_month, _organize_by_month_try.
  rewrite Hd. py_step. by rewrite Hparse.
Qed.

Lemma process_units_rejected_date (units : list string) (d tok : string)
    (rest : list string) (e : Py.exn) (id : Z) (w : world) :
  Py.split d = tok :: rest → fromisoformat tok = Py.Raise e →
  process_units units d id w = (Py.Ok tt, w).
Proof.
  intros Hd Hparse. induction units as [|u units IH]; cbn [process_units]; [done|].
  destruct (Py.strip u =? "")%string; [done|].
  destruct (process_pgn_content_returns u d id) as [unit ->]; [by rewrite Hd|].
  by rewrite (organize_by_month_rejected _ _ _ _ _ _ Hd Hparse).
Qed.

Lemma process_match_unfold (id : Z) (d f : string) (w : world) (content : bytes) :
  download_dir w !! f = Some content →
  process_match id d f w =
  match process_units (pgn_units f content) d id w with
  | (Py.Ok _, w') => with_db (mark_processed id) w'
  | (Py.Raise _, w') => w'
  end.
Proof. intros Hfile. unfold process_match. by rewrite Hfile. Qed.

Lemma process_match_leaves_unprocessed_cases (id : Z) (d f : string) (w : world) :
  download_dir w !! f = None
  ∨ (∃ content, download_dir w !! f = Some content
                ∧ Py.split d = []
                ∧ Exists (fun u => (Py.strip u =? "")%string = false) (pgn_units f content)) →
  process_match id d f w = w.
Proof.
  intros [Hnone|(content & Hfile & Hd & Hunit)].
  - unfold process_match. by rewrite Hnone.
  - rewrite (process_match_unfold _ _ _ _ _ Hfile).
    by rewrite (process_units_blank_date _ _ _ _ Hd Hunit).
Qed.

Lemma process_match_marks_cases (id : Z) (d f : string) (w : world) (content : bytes) :
  download_dir w !! f = Some content →
  Py.split d ≠ [] ∨ Forall (fun u => (Py.strip u =? "")%string = true) (pgn_units f content) →
  db (process_match id d f w) = mark_processed id (db w).
Proof.
  intros Hfile Hcases. rewrite (process_match_unfold _ _ _ _ _ Hfile).
  pose proof (process_units_db (pgn_units f content) d id w) as Hdb.
  destruct Hcases as [Hd|Hblank].
  - pose proof (process_units_returns (pgn_units f content) d id w Hd) as Hok.
    destruct (process_units (pgn_units f content) d id w) as [[[]|e] w']; [|done].
    cbn [snd] in Hdb. unfold with_db. cbn [db]. by rewrite Hdb.
  - by rewrite (process_units_all_blank _ _ _ _ Hblank).
Qed.

(** [process_match] leaves the whole world as it is, the entry
    unprocessed, when the entry's file is not in the download directory,
    and when the entry's date is blank while the file holds a non-blank
    unit: the rewrite of the first such unit raises before anything is
    written. *)
Theorem process_match_leaves_unprocessed (id : Z) (d f : string) (w : world) :
  download_dir w !! f = None
  ∨ (∃ content, download_dir w !! f = Some content
                ∧ Py.split d = []
                ∧ Exists (fun u => (Py.strip u =? "")%string = false) (pgn_units f content)) →
  process_match id d f w = w.
Proof. apply process_match_leaves_unprocessed_cases. Qed.

(** [process_match] marks the entry processed, and changes the store in
    no other way, whenever the file is there and the date has a first
    token, whatever the file holds (no unit at all, after a failed
    extraction, included); and also for a blank date when every unit is
    blank. *)
Theorem process_match_marks_processed (id : Z) (d f : string) (w : world)
    (content : bytes) :
  download_dir w !! f = Some content →
  Py.split d ≠ [] ∨ Forall (fun u => (Py.strip u =? "")%string = true) (pgn_units f content) →
  db (process_match id d f w) = mark_processed id (db w).
Proof. apply process_match_marks_cases. Qed.

(** When the first token of the date is not a date for [fromisoformat],
    [_organize_by_month] swallows the error: nothing is appended to any
    aggregate file, and the entry is marked processed all the same. *)
Theorem process_match_unparseable_date (id : Z) (d f : string) (w : world)
    (content : bytes) (tok : string) (rest : list string) (e : Py.exn) :
  download_dir w !! f = Some content →
  Py.split d = tok :: rest →
  fromisoformat tok = Py.Raise e →
  process_match id d f w = with_db (mark_processed id) w.
Proof.
  intros Hfile Hd Hparse. rewrite (process_match_unfold _ _ _ _ _ Hfile).
  by rewrite (process_units_rejected_date _ _ _ _ _ _ _ Hd Hparse).
Qed.

End process_match_outcomes.

Lemma process_match_leaves_unprocessed_witness :
  @process_match Demo.runtime 42 "2021-03-15" "match_42.pgn.tar.gz"
     (Demo.scraped 42 "2021-03-15") = Demo.scraped 42 "2021-03-15"
  ∧ @process_match Demo.runtime 42 "  " "match_42.pgn.tar.gz"
       (Demo.fetched 42 "  " Demo.archive) = Demo.fetched 42 "  " Demo.archive.
Proof.
  split; apply process_match_leaves_unprocessed.
  - left. by vm_compute.
  - right. exists Demo.archive. split; [by vm_compute|]. split; [by vm_compute|].
    apply Exists_cons_hd. by vm_compute.
Defined.

Lemma process_match_marks_processed_witness :
  matches (db (@process_match Demo.runtime 7 "2021-03-15" "match_7.pgn.tar.gz"
                 (Demo.fetched 7 "2021-03-15" Demo.html))) !! 7
  = Some (mk_row "2021-03-15" "match_7.pgn.tar.gz" None "success" 1 true).
Proof.
  rewrite (@process_match_marks_processed Demo.runtime 7 "2021-03-15" "match_7.pgn.tar.gz"
             (Demo.fetched 7 "2021-03-15" Demo.html) Demo.html).
  - by vm_compute.
  - by vm_compute.
  - left. by vm_compute.
Defined.

Lemma process_match_unparseable_date_witness :
  let w := Demo.fetched 42 "yesterday" Demo.archive in
  @process_match Demo.runtime 42 "yesterday" "match_42.pgn.tar.gz" w
  = with_db (mark_processed 42) w
  ∧ processed_dir (@process_match Demo.runtime 42 "yesterday" "match_42.pgn.tar.gz" w) = ∅.
Proof.
  cbn zeta.
  assert (Heq : @process_match Demo.runtime 42 "yesterday" "match_42.pgn.tar.gz"
                  (Demo.fetched 42 "yesterday" Demo.archive)
                = with_db (mark_processed 42) (Demo.fetched 42 "yesterday" Demo.archive)).
  { apply (@process_match_unparseable_date Demo.runtime 42 "yesterday" "match_42.pgn.tar.gz"
             _ Demo.archive "yesterday" [] Py.ValueError); by vm_compute. }
  split; [exact Heq|]. by rewrite Heq.
Defined.

(** ** The normalizer: what extraction returns *)

Section extraction.
Context `{Runtime}.

Lemma omap_pgn_cons (m : TarInfo) (members : list TarInfo) :
  omap pgn_member_text (m :: members)
  = match pgn_member_text m with
    | Some text => text :: omap pgn_member_text members
    | None => omap pgn_member_text members
    end.
Proof. reflexivity. Qed.

Lemma pgn_member_text_cases (m : TarInfo) :
  (Py.endswith (name m) ".pgn" = false ∧ pgn_member_text m = None)
  ∨ (Py.endswith (name m) ".pgn" = true ∧ extractfile m = NotAFile
     ∧ pgn_member_text m = None)
  ∨ (∃ data, Py.endswith (name m) ".pgn" = true ∧ extractfile m = FileData data
             ∧ pgn_member_text m = Some (decode_utf8_ignore data))
  ∨ (unreadable_pgn m ∧ pgn_member_text m = None).
Proof.
  unfold pgn_member_text, unreadable_pgn.
  destruct (Py.endswith (name m) ".pgn"); [|by left].
  destruct (extractfile m) as [|data|]; [right; left|right; right; left|right; right; right];
    eauto.
Qed.

Lemma extract_members_prefix (members : list TarInfo) (acc : list string) :
  ∃ got, extract_members members acc = acc ++ got
         ∧ got `prefix_of` omap pgn_member_text members
         ∧ (Forall (fun m => ¬ unreadable_pgn m) members →
            got = omap pgn_member_text members).
Proof.
  revert acc. induction members as [|m members IH]; intros acc.
  { exists []. cbn [extract_members]. by rewrite app_nil_r. }
  rewrite omap_pgn_cons. cbn [extract_members].
  destruct (pgn_member_text_cases m)
    as [(-> & ->)|[(-> & -> & ->)|[(data & -> & -> & ->)|[Hu ->]]]].
  - destruct (IH acc) as (got & -> & Hprefix & Hall). exists got.
    split; [done|]. split; [done|]. intros Hok. apply Hall. by inv Hok.
  - destruct (IH acc) as (got & -> & Hprefix & Hall). exists got.
    split; [done|]. split; [done|]. intros Hok. apply Hall. by inv Hok.
  - destruct (IH (acc ++ [decode_utf8_ignore data])) as (got & -> & Hprefix & Hall).
    exists (decode_utf8_ignore data :: got). rewrite <-app_assoc.
    split; [done|]. split; [by apply prefix_cons|].
    intros Hok. f_equal. apply Hall. by inv Hok.
  - destruct Hu as [Hpgn Hbad]. rewrite Hpgn, Hbad.
    exists []. rewrite app_nil_r. split; [done|]. split; [apply prefix_nil|].
    intros Hok. apply Forall_cons in Hok as [Hm _]. by destruct Hm.
Qed.

Lemma extract_members_stops (before after : list TarInfo) (m : TarInfo) (acc : list string) :
  unreadable_pgn m → Forall (fun m => ¬ unreadable_pgn m) before →
  extract_members (before ++ m :: after) acc = acc ++ omap pgn_member_text before.
Proof.
  intros [Hpgn Hbad] Hbefore. revert acc.
  induction Hbefore as [|b before Hb _ IH]; intros acc.
  - cbn [app extract_members]. rewrite Hpgn, Hbad. by rewrite app_nil_r.
  - rewrite omap_pgn_cons. cbn [app extract_members].
    destruct (pgn_member_text_cases b)
      as [(-> & ->)|[(-> & -> & ->)|[(data & -> & -> & ->)|[Hu _]]]];
      [apply IH|apply IH| |by destruct Hb].
    rewrite IH. by rewrite <-app_assoc.
Qed.

(** [_extract_from_archive] never raises.  An archive that does not open
    gives no unit.  One that opens gives the decoded texts of its regular
    ".pgn" members, in archive order, up to the first such member that
    cannot be read: all of them when every one can be read, those before
    the unreadable one otherwise; members with other names and members
    that are no files are skipped. *)
Theorem extract_from_archive_units (archive : bytes) :
  (∀ e, targz_getmembers archive = Py.Raise e → _extract_from_archive archive = [])
  ∧ (∀ members, targz_getmembers archive = Py.Ok members →
       _extract_from_archive archive `prefix_of` omap pgn_member_text members
       ∧ (Forall (fun m => ¬ unreadable_pgn m) members →
          _extract_from_archive archive = omap pgn_member_text members)
       ∧ (∀ before m after, members = before ++ m :: after →
            unreadable_pgn m → Forall (fun m => ¬ unreadable_pgn m) before →
            _extract_from_archive archive = omap pgn_member_text before)).
Proof.
  unfold _extract_from_archive. split; [by intros e ->|]. intros members ->.
  destruct (extract_members_prefix members []) as (got & Hgot & Hprefix & Hall).
  rewrite Hgot, app_nil_l. split; [done|]. split; [done|].
  intros before m after -> Hbad Hbefore.
  rewrite <-(app_nil_l got), <-Hgot.
  by rewrite (extract_members_stops _ _ _ _ Hbad Hbefore).
Qed.

End extraction.

(** ** The scraper: the entries of a listing *)

Lemma chars_app (s t : string) :
  String.list_ascii_of_string (s +:+ t)
  = String.list_ascii_of_string s ++ String.list_ascii_of_string t.
Proof.
  induction s as [|c s IH]; [done|].
  change (c :: String.list_ascii_of_string (s +:+ t)
          = c :: (String.list_ascii_of_string s ++ String.list_ascii_of_string t)).
  by rewrite IH.
Qed.

Lemma chars_inj (s t : string) :
  String.list_ascii_of_string s = String.list_ascii_of_string t → s = t.
Proof.
  intros Heq. rewrite <-(String.string_of_list_ascii_of_string s).
  rewrite <-(String.string_of_list_ascii_of_string t). by rewrite Heq.
Qed.

Lemma rev_app_string (s t : string) :
  String.rev (s +:+ t) = String.rev t +:+ String.rev s.
Proof.
  apply chars_inj. by rewrite chars_app, !chars_rev, chars_app, reverse_app.
Qed.

Lemma prefix_app_self (p s : string) : String.prefix p (p +:+ s) = true.
Proof.
  induction p as [|c p IH]; [by destruct s|].
  change (String.prefix (String c p) (String c (p +:+ s)) = true).
  by rewrite prefix_String, Ascii.eqb_refl.
Qed.

(** A name built by adding a suffix ends with it. *)
Lemma endswith_app (s p : string) : Py.endswith (s +:+ p) p = true.
Proof. unfold Py.endswith. rewrite rev_app_string. apply prefix_app_self. Qed.

Lemma scraped_name_targz (match_id : string) :
  Py.endswith ("match_" +:+ match_id +:+ ".pgn.tar.gz") ".tar.gz" = true.
Proof.
  change ".pgn.tar.gz" with (".pgn" +:+ ".tar.gz").
  rewrite <-!string_app_assoc. apply endswith_app.
Qed.

Lemma nonempty_spec (s : string) : nonempty s = true ↔ s ≠ "".
Proof. unfold nonempty. rewrite negb_true_iff. apply String.eqb_neq. Qed.

Lemma parse_html_length (table_rows : list (list cell)) :
  (length (_parse_html table_rows) ≤ length table_rows)%nat.
Proof.
  induction table_rows as [|tds rows IH]; cbn [_parse_html length]; [done|].
  destruct tds as [|first_td tds]; [lia|].
  destruct (last (first_td :: tds)); [|lia].
  destruct (nonempty _ && nonempty _); cbn [length]; lia.
Qed.

Lemma parse_html_elem (table_rows : list (list cell)) (m : scraped) :
  m ∈ _parse_html table_rows →
  m.1.1 ≠ "" ∧ m.1.2 ≠ "" ∧ m.2 = "match_" +:+ m.1.1 +:+ ".pgn.tar.gz".
Proof.
  induction table_rows as [|tds rows IH]; cbn [_parse_html].
  { by intros ?%elem_of_nil. }
  destruct tds as [|first_td tds]; [exact IH|].
  destruct (last (first_td :: tds)) as [last_td|]; [|exact IH].
  destruct (nonempty _ && nonempty _) eqn:Hboth; [|exact IH].
  apply andb_true_iff in Hboth as [Hid Hdate].
  apply nonempty_spec in Hid. apply nonempty_spec in Hdate.
  intros [->|Hin]%elem_of_cons; [|by apply IH]. by simpl.
Qed.

(** Every entry [_parse_html] returns has a non-empty id and a non-empty
    date, and its file name is "match_<id>.pgn.tar.gz", which ends in
    ".tar.gz"; a listing gives at most one entry per row. *)
Theorem parse_html_entries (table_rows : list (list cell)) (m : scraped) :
  m ∈ _parse_html table_rows →
  m.1.1 ≠ "" ∧ m.1.2 ≠ ""
  ∧ m.2 = "match_" +:+ m.1.1 +:+ ".pgn.tar.gz"
  ∧ Py.endswith m.2 ".tar.gz" = true
  ∧ (length (_parse_html table_rows) ≤ length table_rows)%nat.
Proof.
  intros Hin. destruct (parse_html_elem _ _ Hin) as (Hid & Hdate & Hname).
  split; [done|]. split; [done|]. split; [done|].
  split; [|apply parse_html_length].
  rewrite Hname. apply scraped_name_targz.
Qed.

Lemma parse_html_entries_witness :
  let listing :=
    [ [mk_cell (Some "42") "42"; mk_cell None "lc0.net.1"; mk_cell None "2021-03-15 18:22:04"];
      [];
      [mk_cell None ""; mk_cell None "2021-03-16"] ] in
  _parse_html listing = [("42", "2021-03-15 18:22:04", "match_42.pgn.tar.gz")]
  ∧ Py.endswith "match_42.pgn.tar.gz" ".tar.gz" = true.
Proof.
  cbn zeta. split; [by vm_compute|].
  refine (proj1 (proj2 (proj2 (proj2
    (parse_html_entries
       [ [mk_cell (Some "42") "42"; mk_cell None "lc0.net.1";
          mk_cell None "2021-03-15 18:22:04"];
         [];
         [mk_cell None ""; mk_cell None "2021-03-16"] ]
       ("42", "2021-03-15 18:22:04", "match_42.pgn.tar.gz") _))))).
  vm_compute. left.
Defined.

Section scraped_validation.
Context `{Runtime}.

(** For a file name as the scraper builds it, validation only ever takes
    the archive branch: a payload is accepted exactly when it opens as a
    gzip'd tar with a member ending in ".pgn".  A plain PGN text, as the
    two ".pgn" candidates would serve it, is accepted only if it is such
    an archive. *)
Theorem scraped_name_validation (match_id : string) (content : bytes) :
  _validate_pgn_content content ("match_" +:+ match_id +:+ ".pgn.tar.gz") = true
  ↔ ∃ members m, targz_getmembers content = Py.Ok members
                 ∧ m ∈ members ∧ Py.endswith (name m) ".pgn" = true.
Proof.
  unfold _validate_pgn_content, _validate_pgn_content_try.
  rewrite scraped_name_targz.
  destruct (targz_getmembers content) as [members|e]; py_step.
  - rewrite existsb_exists. split.
    + intros (m & Hin & Hm). exists members, m. by rewrite list_elem_of_In.
    + intros (members' & m & [= <-] & Hin & Hm). exists m. by rewrite <-list_elem_of_In.
  - split; [done|]. by intros (members & m & [=] & _).
Qed.

End scraped_validation.

(** ** The analyzer and the fetcher *)

Lemma filter_ext_in {A : Type} (p q : A → bool) (l : list A) :
  (∀ x, x ∈ l → p x = q x) →
  filter (fun x => p x = true) l = filter (fun x => q x = true) l.
Proof.
  induction l as [|x l IH]; intros Heq; [done|].
  rewrite !filter_cons, (Heq x) by left.
  rewrite IH by (intros y Hy; apply Heq; by right). done.
Qed.

Lemma retry_candidate_not_pending (r : match_row) :
  Analyzer.is_retry_candidate r = true → is_pending r = false.
Proof.
  unfold Analyzer.is_retry_candidate, has_status, is_pending.
  intros [Hfailed _]%andb_true_iff. apply String.eqb_eq in Hfailed. by rewrite Hfailed.
Qed.

(** An entry the analyzer reports as eligible for retry (status failed,
    fewer than 3 attempts) is never among the entries the fetcher asks
    for, whatever the limit. *)
Theorem retry_candidates_not_fetched (db : MatchDatabase) (limit : option Z)
    (id : Z) (r : match_row) :
  matches db !! id = Some r →
  Analyzer.is_retry_candidate r = true →
  ∀ m, m ∈ get_pending_downloads limit db → m.1.1 ≠ id.
Proof.
  intros Hrow Hretry m Hm Heq.
  apply elem_of_get_pending_downloads in Hm as (r' & Hrow' & Hpend).
  rewrite Heq, Hrow in Hrow'. injection Hrow' as <-.
  by rewrite (retry_candidate_not_pending r Hretry) in Hpend.
Qed.

Lemma retry_candidates_not_fetched_witness :
  let w := @download_all Demo.runtime Demo.malformed None (Demo.scraped 7 "2021-03-15") in
  Analyzer.retry_count (db w) = 1%nat
  ∧ ∀ m, m ∈ get_pending_downloads None (db w) → m.1.1 ≠ 7.
Proof.
  cbn zeta. split; [by vm_compute|].
  apply (retry_candidates_not_fetched _ None 7
           (mk_row "2021-03-15" "match_7.pgn.tar.gz" None "failed" 1 false));
    by vm_compute.
Defined.

Section analyzer_on_program_states.
Context `{Runtime}.

(** In every state the application reaches, the analyzer's figures read
    as follows: every failed match counts as eligible for retry; its
    pending downloads are exactly the entries the fetcher would ask for;
    and its matches downloaded but not processed are exactly the entries
    the normalizer would select. *)
Theorem analyzer_figures (w : world) :
  program_state w →
  Analyzer.retry_count (db w) = Stats.failed (get_stats (db w))
  ∧ Analyzer.pending_downloads (db w) = length (get_pending_downloads None (db w))
  ∧ Analyzer.pending_processing (db w) = length (ready_rows (db w)).
Proof.
  intros Hw. destruct (program_state_healthy w Hw) as (Honce & _).
  unfold Analyzer.retry_count, Analyzer.pending_downloads, Analyzer.pending_processing,
    get_stats, count_where. cbn [Stats.failed].
  split; [|split].
  - f_equal. apply (filter_ext_in (fun kv => Analyzer.is_retry_candidate kv.2)
                                  (fun kv => has_status "failed" kv.2)).
    intros [id r] Hin. apply elem_of_map_to_list in Hin. simpl.
    unfold Analyzer.is_retry_candidate, has_status.
    destruct (Honce id r Hin) as [[Hs Ha]|[[Hs|Hs] Ha]]; rewrite Hs, Ha; done.
  - unfold get_pending_downloads, pending_rows.
    rewrite length_fmap, (Permutation_length (merge_sort_Permutation _ _)).
    f_equal. apply (filter_ext_in
                      (fun kv => has_status "pending" kv.2 && (download_attempts kv.2 <? 3))
                      (fun kv => is_pending kv.2)).
    intros [id r] Hin. apply elem_of_map_to_list in Hin. simpl.
    unfold has_status, is_pending, Config.MAX_RETRIES.
    destruct (Honce id r Hin) as [[Hs Ha]|[[Hs|Hs] Ha]]; rewrite Hs, Ha; done.
  - unfold ready_rows.
    by rewrite (Permutation_length (merge_sort_Permutation _ _)).
Qed.

End analyzer_on_program_states.

Lemma analyzer_figures_witness :
  Analyzer.retry_count (db after_run_all) = 0%nat
  ∧ Analyzer.pending_downloads (db after_run_all)
    = length (get_pending_downloads None (db after_run_all))
  ∧ Analyzer.pending_processing (db after_run_all) = 0%nat.
Proof.
  destruct (@analyzer_figures Demo.runtime after_run_all after_run_all_reached)
    as (Hretry & Hpending & Hprocessing).
  split; [rewrite Hretry; by vm_compute|]. split; [exact Hpending|].
  rewrite Hprocessing. by vm_compute.
Defined.

(** ** The version table is in order *)

Lemma lex_compare_refl (a : list Z) : lex_compare a a = Eq.
Proof. induction a as [|x a IH]; simpl; [done|]. by rewrite Z.compare_refl. Qed.

Lemma naive_ge_refl (a : naive) : naive_ge a a = true.
Proof. unfold naive_ge. by rewrite lex_compare_refl. Qed.

Lemma StronglySorted_lookup {A : Type} (R : relation A) (l : list A) (i j : nat) (a b : A) :
  StronglySorted R l → (i < j)%nat → l !! i = Some a → l !! j = Some b → R a b.
Proof.
  intros Hsorted. revert i j. induction Hsorted as [|x l _ IH Hall]; intros i j Hij Hi Hj.
  - done.
  - destruct j as [|j]; [lia|]. destruct i as [|i]; simpl in Hi, Hj.
    + injection Hi as <-. eapply Forall_forall in Hall; [exact Hall|].
      by eapply list_elem_of_lookup_2.
    + apply (IH i j); [lia|done..].
Qed.

(** The thresholds of the table run from the newest to the oldest. *)
Lemma VERSION_MAP_sorted :
  StronglySorted (fun a b : naive * string => naive_ge a.1 b.1 = true) Config.VERSION_MAP.
Proof. apply (bool_decide_unpack _). by vm_compute. Qed.

Section version_order.
Context `{Runtime}.

(** A later date never gets an older version: of two dates parsed to
    naive values, both on or after 1970-01-01, the later one is mapped by
    a table entry at the same or an earlier place in the table, whose
    threshold is the same or later. *)
Theorem get_lc0_version_monotone (s1 s2 tok1 tok2 : string) (rest1 rest2 : list string)
    (d1 d2 : naive) :
  Py.split s1 = tok1 :: rest1 → fromisoformat tok1 = Py.Ok (Naive d1) →
  Py.split s2 = tok2 :: rest2 → fromisoformat tok2 = Py.Ok (Naive d2) →
  naive_ge d1 (datetime_ymd 1970 1 1) = true →
  naive_ge d2 d1 = true →
  ∃ i1 i2 vd1 vd2,
    Config.VERSION_MAP !! i1 = Some (vd1, _get_lc0_version s1)
    ∧ Config.VERSION_MAP !! i2 = Some (vd2, _get_lc0_version s2)
    ∧ (i2 ≤ i1)%nat
    ∧ naive_ge vd2 vd1 = true.
Proof.
  intros Hs1 Hp1 Hs2 Hp2 Hfloor Hlater.
  rewrite (get_lc0_version_of_naive _ _ _ _ Hs1 Hp1).
  rewrite (get_lc0_version_of_naive _ _ _ _ Hs2 Hp2).
  destruct (List.find (fun e => naive_ge d1 e.1) Config.VERSION_MAP) as [[vd1 v1]|] eqn:Hf1.
  2:{ pose proof (proj1 (version_loop_falls_through d1)) as Hfall.
      rewrite version_loop_naive, Hf1 in Hfall. rewrite Hfall in Hfloor; done. }
  apply find_first in Hf1 as (i1 & Hi1 & Hreach1 & _). simpl in Hreach1.
  assert (Hreach2 : naive_ge d2 vd1 = true) by by eapply naive_ge_trans.
  destruct (List.find (fun e => naive_ge d2 e.1) Config.VERSION_MAP) as [[vd2 v2]|] eqn:Hf2.
  2:{ rewrite find_none_iff in Hf2.
      assert (Hfail : naive_ge d2 vd1 = false)
        by (apply (Hf2 (vd1, v1)); by eapply list_elem_of_lookup_2).
      congruence. }
  apply find_first in Hf2 as (i2 & Hi2 & _ & Hbefore2).
  assert (Hle : (i2 ≤ i1)%nat).
  { destruct (decide (i2 ≤ i1)%nat) as [|Hgt]; [done|].
    assert (Hfail : naive_ge d2 vd1 = false)
      by (apply (Hbefore2 i1 (vd1, v1)); [lia|done]).
    congruence. }
  exists i1, i2, vd1, vd2. simpl. split; [done|]. split; [done|]. split; [done|].
  destruct (decide (i2 = i1)) as [->|Hne].
  - rewrite Hi1 in Hi2. injection Hi2 as <- <-. apply naive_ge_refl.
  - apply (StronglySorted_lookup _ _ i2 i1 (vd2, v2) (vd1, v1) VERSION_MAP_sorted);
      [lia|done..].
Qed.

End version_order.

Lemma get_lc0_version_monotone_witness :
  ∃ i1 i2 vd1 vd2,
    Config.VERSION_MAP !! i1
    = Some (vd1, @_get_lc0_version Demo.runtime "2021-03-15 18:22:04")
    ∧ Config.VERSION_MAP !! i2 = Some (vd2, @_get_lc0_version Demo.runtime "2024-08-01")
    ∧ (i2 ≤ i1)%nat
    ∧ naive_ge vd2 vd1 = true.
Proof.
  apply (@get_lc0_version_monotone Demo.runtime
           "2021-03-15 18:22:04" "2024-08-01" "2021-03-15" "2024-08-01" ["18:22:04"] []
           (datetime_ymd 2021 3 15) (datetime_ymd 2024 8 1)); by vm_compute.
Defined.

(** ** The fetcher: no candidate is asked twice *)

Lemma url_patterns_NoDup (match_id : Z) : NoDup (url_patterns 1 match_id).
Proof.
  unfold url_patterns.
  assert (Hone : Py.str 1 = "1") by (by vm_compute). rewrite Hone.
  assert (Hsuffix : ∀ s : string, s +:+ ".pgn.tar.gz" ≠ s +:+ ".pgn").
  { intros s Heq. by apply (inj (String.app s)) in Heq. }
  assert (Hrun : ∀ s t : string, "1" +:+ "/match_" +:+ s ≠ "match_" +:+ t).
  { intros s t Heq. discriminate Heq. }
  set (base := Config.STORAGE_BASE_URL).
  set (i := Py.str match_id).
  repeat (apply NoDup_cons; split); [..|apply NoDup_nil_2];
    rewrite ?not_elem_of_cons; repeat split; try apply not_elem_of_nil;
    intros Heq; apply (inj (String.app base)) in Heq.
  - apply (inj (String.app "1")), (inj (String.app "/match_")) in Heq. by apply (Hsuffix i).
  - by apply Hrun in Heq.
  - by apply Hrun in Heq.
  - by apply Hrun in Heq.
  - by apply Hrun in Heq.
  - apply (inj (String.app "match_")) in Heq. by apply (Hsuffix i).
Qed.

Section requests.
Context `{Runtime}.

(** The requests one call of [download_match] adds are the first
    candidates of its list, in order and none twice; it makes at least
    one request and at most four. *)
Theorem download_match_requests (net : session) (id : Z) (d f : string) (w : world) :
  ∃ asked,
    requests (download_match net (id, d, f) w).2 = requests w ++ asked
    ∧ asked `prefix_of` url_patterns 1 id
    ∧ NoDup asked
    ∧ (1 ≤ length asked ≤ 4)%nat.
Proof.
  pose proof (url_patterns_NoDup id) as Hnodup.
  assert (Hfour : length (url_patterns 1 id) = 4%nat) by done.
  destruct (download_match_cases net id d f w)
    as [(k & url & content & Hk & _ & ->)|[_ ->]]; cbn [snd requests].
  - exists (take (S k) (url_patterns 1 id)). split; [done|].
    split; [apply prefix_take|].
    split; [eapply sublist_NoDup; [exact Hnodup|apply sublist_take]|].
    apply lookup_lt_Some in Hk. rewrite length_take. lia.
  - exists (url_patterns 1 id). split; [done|]. split; [done|]. split; [done|]. lia.
Qed.

End requests.

(** ** The normalizer: running it again *)

Section process_again.
Context `{Runtime}.

Local Abbreviation process_row :=
  (fun w kv => process_match kv.1 (date kv.2) (pgn_filename kv.2) w).

Lemma stays_unprocessed_true (id : Z) (d f : string) (w : world) :
  stays_unprocessed d f (download_dir w) = true → process_match id d f w = w.
Proof.
  unfold stays_unprocessed. intros Hstays. apply process_match_leaves_unprocessed_cases.
  destruct (download_dir w !! f) as [content|]; [|by left]. right. exists content.
  destruct (Py.split d); [|done]. split; [done|]. split; [done|].
  apply Exists_exists. apply existsb_exists in Hstays as (u & Hin & Hu).
  exists u. split; [by apply list_elem_of_In|]. by apply negb_true_iff.
Qed.

Lemma stays_unprocessed_false (id : Z) (d f : string) (w : world) :
  stays_unprocessed d f (download_dir w) = false →
  db (process_match id d f w) = mark_processed id (db w).
Proof.
  unfold stays_unprocessed. intros Hgoes.
  destruct (download_dir w !! f) as [content|] eqn:Hfile; [|done].
  apply (process_match_marks_cases _ _ _ _ content Hfile).
  destruct (Py.split d); [|by left]. right.
  apply Forall_forall. intros u Hin.
  destruct (Py.strip u =? "")%string eqn:Hu; [done|].
  assert (existsb (fun u => negb (Py.strip u =? "")%string) (pgn_units f content) = true)
    as Hex; [|congruence].
  apply existsb_exists. exists u. split; [by apply list_elem_of_In|]. by rewrite Hu.
Qed.

Lemma process_fold_frame (rows : list (Z * match_row)) (w : world) :
  download_dir (foldl process_row w rows) = download_dir w
  ∧ (∀ id r, matches (db w) !! id = Some r →
       ∃ r', matches (db (foldl process_row w rows)) !! id = Some r'
             ∧ (r' = r ∨ r' = set_processed r)).
Proof.
  revert w. induction rows as [|kv rows IH]; intros w; cbn [foldl].
  { split; [done|]. intros id r Hrow. exists r. auto. }
  set (w1 := process_match kv.1 (date kv.2) (pgn_filename kv.2) w).
  destruct (IH w1) as (Hd & Hrows).
  destruct (process_match_frame kv.1 (date kv.2) (pgn_filename kv.2) w) as (Hd1 & _).
  fold w1 in Hd1. split; [congruence|]. intros id r Hrow.
  assert (Hstep : ∃ r1, matches (db w1) !! id = Some r1 ∧ (r1 = r ∨ r1 = set_processed r)).
  { destruct (process_match_db kv.1 (date kv.2) (pgn_filename kv.2) w) as [Hdb|Hdb];
      fold w1 in Hdb; rewrite Hdb; [exists r; auto|].
    unfold mark_processed. cbn [matches].
    destruct (decide (kv.1 = id)) as [->|Hne].
    - rewrite lookup_alter_eq, Hrow. exists (set_processed r). auto.
    - rewrite lookup_alter_ne by done. exists r. auto. }
  destruct Hstep as (r1 & Hrow1 & Hr1). destruct (Hrows id r1 Hrow1) as (r' & Hrow' & Hr').
  exists r'. split; [done|]. destruct Hr1 as [->| ->], Hr' as [->| ->]; auto.
Qed.

(** An entry of the list that [process_match] does not give up on ends
    processed. *)
Lemma process_fold_marks (rows : list (Z * match_row)) (w : world) (kv : Z * match_row)
    (r : match_row) :
  kv ∈ rows →
  stays_unprocessed (date kv.2) (pgn_filename kv.2) (download_dir w) = false →
  matches (db w) !! kv.1 = Some r →
  ∃ r', matches (db (foldl process_row w rows)) !! kv.1 = Some r' ∧ processed r' = true.
Proof.
  revert w r. induction rows as [|kv0 rows IH]; intros w r Hin Hgoes Hrow; cbn [foldl].
  { by apply elem_of_nil in Hin. }
  set (w1 := process_match kv0.1 (date kv0.2) (pgn_filename kv0.2) w).
  destruct (process_match_frame kv0.1 (date kv0.2) (pgn_filename kv0.2) w) as (Hd1 & _).
  fold w1 in Hd1.
  apply elem_of_cons in Hin as [->|Hin].
  - pose proof (stays_unprocessed_false kv0.1 _ _ w Hgoes) as Hdb. fold w1 in Hdb.
    assert (Hrow1 : matches (db w1) !! kv0.1 = Some (set_processed r)).
    { rewrite Hdb. unfold mark_processed. cbn [matches].
      by rewrite lookup_alter_eq, Hrow. }
    destruct (process_fold_frame rows w1) as (_ & Hrows).
    destruct (Hrows _ _ Hrow1) as (r' & Hrow' & [->| ->]); eexists; by split.
  - destruct (process_fold_frame [kv0] w) as (_ & Hrows). cbn [foldl] in Hrows. fold w1 in Hrows.
    destruct (Hrows _ _ Hrow) as (r1 & Hrow1 & _).
    apply (IH w1 r1); [done|by rewrite Hd1|done].
Qed.

Lemma process_fold_gives_up (rows : list (Z * match_row)) (w : world) :
  Forall (fun kv => stays_unprocessed (date kv.2) (pgn_filename kv.2) (download_dir w) = true)
         rows →
  foldl process_row w rows = w.
Proof.
  induction 1 as [|kv rows Hkv _ IH]; cbn [foldl]; [done|].
  by rewrite (stays_unprocessed_true _ _ _ _ Hkv).
Qed.

(** The entries [process_all] leaves selected are those [process_match]
    gives up on: their file is missing, or their date is blank while a
    unit of the file is not.  A second run therefore changes nothing: no
    unit is appended twice. *)
Theorem process_all_again (w : world) :
  (∀ id r, (id, r) ∈ ready_rows (db (process_all w)) →
           (id, r) ∈ ready_rows (db w)
           ∧ stays_unprocessed (date r) (pgn_filename r) (download_dir w) = true)
  ∧ process_all (process_all w) = process_all w.
Proof.
  assert (Hleft : ∀ id r, (id, r) ∈ ready_rows (db (process_all w)) →
            (id, r) ∈ ready_rows (db w)
            ∧ stays_unprocessed (date r) (pgn_filename r) (download_dir w) = true).
  { intros id r' Hin. apply elem_of_ready_rows in Hin as [Hrow' Hready'].
    destruct (process_all_frame w) as (_ & _ & _ & _ & Hrows).
    destruct (Hrows id r' Hrow') as (r & Hrow & Hr).
    assert (r' = r) as ->.
    { destruct Hr as [->| ->]; [done|].
      apply is_ready_spec in Hready' as [_ Hp]. discriminate Hp. }
    assert (Hin : (id, r) ∈ ready_rows (db w)) by by apply elem_of_ready_rows.
    split; [done|].
    destruct (stays_unprocessed (date r) (pgn_filename r) (download_dir w)) eqn:Hstays;
      [done|].
    destruct (process_fold_marks (ready_rows (db w)) w (id, r) r Hin Hstays Hrow)
      as (r1 & Hrow1 & Hp1).
    fold (process_all w) in Hrow1. simpl in Hrow1. rewrite Hrow' in Hrow1.
    injection Hrow1 as <-. apply is_ready_spec in Hready' as [_ Hp]. congruence. }
  split; [exact Hleft|].
  unfold process_all at 1. apply process_fold_gives_up. apply Forall_forall.
  intros [id r] Hin. destruct (Hleft id r Hin) as [_ Hstays].
  destruct (process_all_frame w) as (-> & _). exact Hstays.
Qed.

End process_again.
